(** * Tabular analysis pipeline of the fraud-detection front end

    A shallow embedding of the upload manager's data path
    ([parseCSV], [analyzeTransactionData], [calculateStats],
    [calculateCorrelations]) together with the properties its design
    document states about it, and of the code around it: the choice of
    a file ([handleFiles]), the progress simulation
    ([simulateProcessing]), the sample of rows shown, and the class
    distribution chart the results feed.

    Conventions of the embedding.
    - A JavaScript number is a [number]: an exact rational, or one of the
      three IEEE specials.  Finite arithmetic is exact (no rounding to
      53 bits) and there is a single zero; division by zero and the
      arithmetic of infinities and NaN follow IEEE 754.
    - Counters, lengths and indices, which the program only ever
      increments or compares, are integers ([nat] and [Z]).
    - A string is a sequence of 8-bit code units.
    - An object used as a record of columns is a finite map from the
      names of its own properties to their values; reading an absent
      property gives [None], which stands for [undefined], and an
      assignment under the name [__proto__] binds nothing ([assign]).
    - [Math.random()] reads the next element of a stream [rnd] of draws;
      the position in the stream is threaded through the code that
      draws. *)

From Stdlib Require Import ZArith QArith Qround Lia Lqa Ascii String Sorted.
From stdpp Require Import gmap strings list fin_maps pretty.

Local Open Scope Z_scope.

(** ** Numbers *)

Inductive number : Type :=
| Fin (q : Q)
| PosInf
| NegInf
| NaN.

(** [Math.floor] and [Math.round] of a finite number, as integers:
    the greatest integer below, and the nearest integer with a tie
    going up. *)
Definition floor_count (q : Q) : Z := Qfloor q.
Definition round_count (q : Q) : Z := Qfloor (q + (1 # 2))%Q.

Module Num.

Definition of_Z (z : Z) : number := Fin (inject_Z z).
Definition of_nat (n : nat) : number := of_Z (Z.of_nat n).

Definition isNaN (x : number) : bool :=
  match x with NaN => true | _ => false end.

(** Sign of a number; [Eq] for zero and for NaN. *)
Definition sign (x : number) : comparison :=
  match x with
  | Fin q => (q ?= 0)%Q
  | PosInf => Gt
  | NegInf => Lt
  | NaN => Eq
  end.

Definition sign_mul (a b : comparison) : comparison :=
  match a, b with
  | Eq, _ | _, Eq => Eq
  | Gt, Gt | Lt, Lt => Gt
  | _, _ => Lt
  end.

(** The infinity of a given sign; an undetermined sign is NaN. *)
Definition inf_of_sign (c : comparison) : number :=
  match c with Gt => PosInf | Lt => NegInf | Eq => NaN end.

Definition neg (x : number) : number :=
  match x with
  | Fin q => Fin (Qred (- q))
  | PosInf => NegInf
  | NegInf => PosInf
  | NaN => NaN
  end.

Definition add (x y : number) : number :=
  match x, y with
  | NaN, _ | _, NaN => NaN
  | Fin a, Fin b => Fin (Qred (a + b))
  | PosInf, NegInf | NegInf, PosInf => NaN
  | PosInf, _ | _, PosInf => PosInf
  | NegInf, _ | _, NegInf => NegInf
  end.

Definition sub (x y : number) : number := add x (neg y).

Definition mul (x y : number) : number :=
  match x, y with
  | NaN, _ | _, NaN => NaN
  | Fin a, Fin b => Fin (Qred (a * b))
  | _, _ => inf_of_sign (sign_mul (sign x) (sign y))
  end.

(** [x / y].  A finite non-zero number over zero is an infinity,
    [0 / 0] and [Infinity / Infinity] are NaN. *)
Definition div (x y : number) : number :=
  match x, y with
  | NaN, _ | _, NaN => NaN
  | Fin a, Fin b =>
      if Qeq_bool b 0 then inf_of_sign (sign x) else Fin (Qred (a / b))
  | Fin _, _ => Fin 0
  | _, Fin b => inf_of_sign (sign_mul (sign x) (if Qeq_bool b 0 then Gt else sign y))
  | _, _ => NaN
  end.

(** [x < y]: false as soon as one side is NaN. *)
Definition ltb (x y : number) : bool :=
  match x, y with
  | NaN, _ | _, NaN => false
  | Fin a, Fin b => if Qlt_le_dec a b then true else false
  | NegInf, NegInf | PosInf, PosInf => false
  | NegInf, _ | _, PosInf => true
  | _, _ => false
  end.

(** [x === y] on numbers: NaN differs from itself. *)
Definition eqb (x y : number) : bool :=
  match x, y with
  | Fin a, Fin b => Qeq_bool a b
  | PosInf, PosInf | NegInf, NegInf => true
  | _, _ => false
  end.

Definition Math_max (x y : number) : number :=
  match x, y with
  | NaN, _ | _, NaN => NaN
  | _, _ => if ltb x y then y else x
  end.

Definition Math_min (x y : number) : number :=
  match x, y with
  | NaN, _ | _, NaN => NaN
  | _, _ => if ltb y x then y else x
  end.

(** [Math.max(...l)] and [Math.min(...l)]. *)
Definition Math_max_list (l : list number) : number := fold_left Math_max l NegInf.
Definition Math_min_list (l : list number) : number := fold_left Math_min l PosInf.

Definition Math_round (x : number) : number :=
  match x with Fin q => of_Z (round_count q) | _ => x end.

(** [Math.pow(x, 2)]. *)
Definition Math_pow_2 (x : number) : number := mul x x.

(** [Math.sqrt], over a square root [sqrt_fin] of the non-negative
    rationals. *)
Definition Math_sqrt (sqrt_fin : Q -> Q) (x : number) : number :=
  match x with
  | Fin q => if Qlt_le_dec q 0 then NaN else Fin (sqrt_fin q)
  | PosInf => PosInf
  | NegInf | NaN => NaN
  end.

End Num.

(** ** Strings *)

Module Str.

Definition is_ws (c : ascii) : bool :=
  let n := nat_of_ascii c in
  ((9 <=? n)%nat && (n <=? 13)%nat) || (n =? 32)%nat || (n =? 160)%nat.

Fixpoint trimStart (s : string) : string :=
  match s with
  | String c s' => if is_ws c then trimStart s' else s
  | EmptyString => EmptyString
  end.

Fixpoint trimEnd (s : string) : string :=
  match s with
  | String c s' =>
      match trimEnd s' with
      | EmptyString => if is_ws c then EmptyString else String c EmptyString
      | t => String c t
      end
  | EmptyString => EmptyString
  end.

Definition trim (s : string) : string := trimEnd (trimStart s).

(** [s.split(sep)] for a one-character separator: never empty. *)
Fixpoint split (sep : ascii) (s : string) : list string :=
  match s with
  | EmptyString => [EmptyString]
  | String c s' =>
      if Ascii.eqb c sep then EmptyString :: split sep s'
      else match split sep s' with
           | w :: ws => String c w :: ws
           | [] => [String c EmptyString]
           end
  end.

Definition startsWith (s p : string) : bool := String.prefix p s.

Definition endsWith (s p : string) : bool :=
  let n := String.length s in
  let m := String.length p in
  (m <=? n)%nat && String.eqb (String.substring (n - m) m s) p.

(** [s.substring(a, b)]: both ends clamped to the string, and swapped
    when [a > b]. *)
Definition substring (s : string) (a b : Z) : string :=
  let len := Z.of_nat (String.length s) in
  let a' := Z.min (Z.max a 0) len in
  let b' := Z.min (Z.max b 0) len in
  let lo := Z.min a' b' in
  let hi := Z.max a' b' in
  String.substring (Z.to_nat lo) (Z.to_nat (hi - lo)) s.

Fixpoint drop (n : nat) (s : string) : string :=
  match n, s with
  | S n', String _ s' => drop n' s'
  | _, _ => s
  end.

End Str.

(** ** Numeric literals: [parseFloat] and the string-to-number conversion *)

Module Lit.

Definition is_digit (c : ascii) : bool :=
  let n := nat_of_ascii c in (48 <=? n)%nat && (n <=? 57)%nat.

Definition digit_val (c : ascii) : Z := Z.of_nat (nat_of_ascii c) - 48.

(** The longest prefix of decimal digits, and what follows it. *)
Fixpoint span_digits (s : string) : string * string :=
  match s with
  | String c s' =>
      if is_digit c
      then let '(d, r) := span_digits s' in (String c d, r)
      else (EmptyString, s)
  | EmptyString => (EmptyString, EmptyString)
  end.

Fixpoint digits_value (acc : Z) (s : string) : Z :=
  match s with
  | String c s' => digits_value (10 * acc + digit_val c) s'
  | EmptyString => acc
  end.

(** ExponentPart: [e] or [E], an optional sign, at least one digit. *)
Definition scan_exponent (s : string) : option (Z * string) :=
  match s with
  | String c s1 =>
      if Ascii.eqb c "e" || Ascii.eqb c "E" then
        let '(sg, s2) :=
          match s1 with
          | String "+" r => (1, r)
          | String "-" r => (-1, r)
          | _ => (1, s1)
          end in
        let '(ds, s3) := span_digits s2 in
        match ds with
        | EmptyString => None
        | _ => Some (sg * digits_value 0 ds, s3)
        end
      else None
  | EmptyString => None
  end.

(** The digits after a decimal point, when there is a point. *)
Definition scan_fraction (s : string) : string * string :=
  match s with
  | String "." r => span_digits r
  | _ => (EmptyString, s)
  end.

(** StrUnsignedDecimalLiteral: the value of the longest prefix that is
    one, and the rest of the string. *)
Definition scan_unsigned (s : string) : option (number * string) :=
  if Str.startsWith s "Infinity" then Some (PosInf, Str.drop 8 s)
  else
    let '(ip, r1) := span_digits s in
    let '(fp, r2) := scan_fraction r1 in
    match String.append ip fp with
    | EmptyString => None
    | ds =>
        let '(e, r3) :=
          match scan_exponent r2 with
          | Some er => er
          | None => (0, r2)
          end in
        Some (Fin (Qred (inject_Z (digits_value 0 ds)
                         * Qpower 10 (e - Z.of_nat (String.length fp)))), r3)
    end.

(** StrDecimalLiteral: an optional sign before the unsigned literal. *)
Definition scan_decimal (s : string) : option (number * string) :=
  match s with
  | String "+" r => scan_unsigned r
  | String "-" r =>
      match scan_unsigned r with
      | Some (n, r') => Some (Num.neg n, r')
      | None => None
      end
  | _ => scan_unsigned s
  end.

(** [parseFloat(s)]: leading white space is skipped, the longest
    numeric prefix is read, anything after it is ignored; NaN when
    there is no such prefix. *)
Definition parseFloat (s : string) : number :=
  match scan_decimal (Str.trimStart s) with
  | Some (n, _) => n
  | None => NaN
  end.

Definition radix_digit (radix : Z) (c : ascii) : option Z :=
  let n := Z.of_nat (nat_of_ascii c) in
  let v := if (48 <=? n) && (n <=? 57) then n - 48
           else if (97 <=? n) && (n <=? 102) then n - 87
           else if (65 <=? n) && (n <=? 70) then n - 55
           else radix in
  if v <? radix then Some v else None.

Fixpoint radix_value (radix : Z) (acc : Z) (s : string) : option Z :=
  match s with
  | String c s' =>
      match radix_digit radix c with
      | Some v => radix_value radix (radix * acc + v) s'
      | None => None
      end
  | EmptyString => Some acc
  end.

(** NonDecimalIntegerLiteral: [0x], [0o] or [0b] and at least one digit. *)
Definition scan_nondecimal (s : string) : option Z :=
  match s with
  | String "0" (String p (String c r)) =>
      let ds := String c r in
      if Ascii.eqb p "x" || Ascii.eqb p "X" then radix_value 16 0 ds
      else if Ascii.eqb p "o" || Ascii.eqb p "O" then radix_value 8 0 ds
      else if Ascii.eqb p "b" || Ascii.eqb p "B" then radix_value 2 0 ds
      else None
  | _ => None
  end.

(** The number a string converts to (as [isNaN] applies it): the
    whole trimmed string must be a literal; the empty string is 0. *)
Definition StringToNumber (s : string) : number :=
  match Str.trim s with
  | EmptyString => Fin 0
  | t =>
      match scan_decimal t with
      | Some (n, EmptyString) => n
      | _ =>
          match scan_nondecimal t with
          | Some z => Num.of_Z z
          | None => NaN
          end
      end
  end.

End Lit.

(** ** Rows and tables *)

(** A cell or property value.  [undefined] is the absence of the
    property. *)
Inductive value : Type :=
| VNum (n : number)
| VStr (s : string)
| VBool (b : bool).

Record RawTable : Type := mkRawTable {
  headers : list string;
  data : list (gmap string value);
  totalRows : nat
}.

(** What a run can throw.  [TypeError] is the runtime's own exception
    for a property read on [undefined]; [ParseError] is the kind the
    design names for unusable input. *)
Inductive error : Type :=
| TypeError
| ParseError.

Inductive result (A : Type) : Type :=
| Ok (a : A)
| Throw (e : error).
Arguments Ok {A} a.
Arguments Throw {A} e.

(** ** The row parser *)

(** The one-character string holding a double quote. *)
Definition dquote : string := String "034" EmptyString.

(** The text of the field at one header position, where [v] is
    [values[j]]: the empty string when the field is absent, and without
    its outer quotes when it starts and ends with one. *)
Definition fieldText (v : option string) : string :=
  let value := match v with
               | Some (String c s) => String c s
               | _ => EmptyString
               end in
  if Str.startsWith value dquote && Str.endsWith value dquote
  then Str.substring value 1 (Z.of_nat (String.length value) - 1)
  else value.

(** Body of the inner loop of [parseCSV]: the value bound to the header. *)
Definition parseField (v : option string) : value :=
  let value := fieldText v in
  let numValue := Lit.parseFloat value in
  if Num.isNaN numValue then VStr value else VNum numValue.

(** The one name that is no property of its own on an object literal:
    it is the accessor of the prototype. *)
Definition proto_key : string := "__proto__".

(** [entry[key] = v] on an object literal, for [v] a number, a string or
    a boolean.  Under [__proto__] the assignment reaches the setter of
    the prototype, which ignores a value that is neither an object nor
    null: nothing is bound.  Under every other name the value becomes
    an own property, replacing the one already there. *)
Definition assign (key : string) (v : value) (entry : gmap string value)
    : gmap string value :=
  if String.eqb key proto_key then entry else <[key := v]> entry.

(** The inner loop: one assignment per header, positionally. *)
Fixpoint parseRow (hs : list string) (values : list string)
    (entry : gmap string value) : gmap string value :=
  match hs with
  | [] => entry
  | h :: hs' => parseRow hs' (tail values) (assign h (parseField (head values)) entry)
  end.

Definition is_blank (line : string) : bool := String.eqb (Str.trim line) EmptyString.

(** [csvData.split('\n').filter(line => line.trim() !== '')]. *)
Definition nonblank_lines (csvData : string) : list string :=
  List.filter (fun line => negb (is_blank line)) (Str.split "010" csvData).

(** Reading [lines[0]] when there is no line gives [undefined], and the
    call of [split] on it throws. *)
Definition parseCSV (csvData : string) : result RawTable :=
  match nonblank_lines csvData with
  | [] => Throw TypeError
  | header :: rest =>
      let headers := map Str.trim (Str.split "," header) in
      let data := map (fun line => parseRow headers (Str.split "," line) ∅) rest in
      Ok (mkRawTable headers data (length data))
  end.

(** ** Reading cells *)

(** The number a value converts to, as [isNaN] applies it. *)
Definition ToNumber (v : option value) : number :=
  match v with
  | Some (VNum n) => n
  | Some (VStr s) => Lit.StringToNumber s
  | Some (VBool b) => Fin (if b then 1 else 0)
  | None => NaN
  end.

Definition isNaN (v : option value) : bool := Num.isNaN (ToNumber v).

(** [parseFloat] of a value: of its string form.  A number prints to a
    literal that reads back as itself; [true], [false] and [undefined]
    print to words that are no literal. *)
Definition parseFloat (v : option value) : number :=
  match v with
  | Some (VNum n) => n
  | Some (VStr s) => Lit.parseFloat s
  | _ => NaN
  end.

(** A value used as a condition. *)
Definition truthy (v : option value) : bool :=
  match v with
  | Some (VBool b) => b
  | Some (VNum (Fin q)) => negb (Qeq_bool q 0)
  | Some (VNum NaN) => false
  | Some (VNum _) => true
  | Some (VStr s) => negb (String.eqb s EmptyString)
  | None => false
  end.

(** [row.Class === 1 || row.Class === '1']. *)
Definition isClassOne (row : gmap string value) : bool :=
  match row !! "Class" with
  | Some (VNum n) => Num.eqb n (Fin 1)
  | Some (VStr s) => String.eqb s "1"
  | _ => false
  end.

(** ** Results of the analysis *)

Module Stats.
Record t : Type := mk {
  min : number;
  max : number;
  mean : number;
  median : number;
  std : number
}.
End Stats.

Record Correlations : Type := mkCorrelations {
  features : list string;
  matrix : list (list number)
}.

Record ConfusionMatrix : Type := mkConfusionMatrix {
  truePositives : Z;
  falsePositives : Z;
  trueNegatives : Z;
  falseNegatives : Z
}.

Record Metrics : Type := mkMetrics {
  accuracy : number;
  precision : number;
  recall : number;
  f1Score : number;
  confusionMatrix : ConfusionMatrix
}.

(** The object [analyzeTransactionData] returns, without its
    [sampleTransactions] (locale-formatted display strings). *)
Record Analysis : Type := mkAnalysis {
  totalTransactions : Z;
  genuineCount : Z;
  fraudulentCount : Z;
  amountStats : Stats.t;
  metrics : Metrics;
  correlations : Correlations;
  processedData : RawTable
}.

(** Accumulators of the first pass over the rows. *)
Record Tally : Type := mkTally {
  tally_genuine : Z;
  tally_fraudulent : Z;
  tally_amounts : list number;
  tally_vFeatures : list (string * list number)
}.

(** [features[k].push(x)] on the feature arrays, kept in key order. *)
Fixpoint push_feature (k : string) (x : number) (fs : list (string * list number))
    : list (string * list number) :=
  match fs with
  | [] => []
  | (k', l) :: fs' =>
      if String.eqb k k' then (k', l ++ [x]) :: fs'
      else (k', l) :: push_feature k x fs'
  end.

Definition vKey (i : nat) : string := "V" +:+ pretty i.

(** The names [V1] .. [V28], in the order the arrays are created. *)
Definition vKeys : list string := map vKey (seq 1 28).

(** ** The statistics engine *)

(** The comparator [(a, b) => a - b] orders [a] after [b] when the
    difference is positive. *)
Definition sorts_after (a b : number) : bool := Num.ltb (Fin 0) (Num.sub a b).

Fixpoint insert_sorted (x : number) (l : list number) : list number :=
  match l with
  | [] => [x]
  | y :: l' => if sorts_after x y then y :: insert_sorted x l' else x :: l
  end.

(** [[...values].sort((a, b) => a - b)], a stable sort.  A difference
    that is NaN counts as 0, as the language has it.  On a list without
    NaN the comparator is consistent and the result is the ascending
    order.  On a list holding NaN it is not, and the language leaves
    the order to the engine: the order given here is one such order,
    and nothing below is stated about the order of such a list. *)
Definition sort (values : list number) : list number := fold_right insert_sorted [] values.

Definition sum (l : list number) : number := fold_left Num.add l (Fin 0).

Section Pipeline.

(** The square root of a non-negative rational, as [Math.sqrt] returns it. *)
Variable sqrt_fin : Q -> Q.

(** The successive results of [Math.random()]. *)
Variable rnd : nat -> Q.

Definition Math_random (k : nat) : number * nat := (Fin (rnd k), S k).

(** [sorted[mid]] and [sorted[mid - 1]] are always within the array;
    [nth] needs a default all the same. *)
Definition calculateStats (values : list number) : Stats.t :=
  match values with
  | [] => Stats.mk (Fin 0) (Fin 0) (Fin 0) (Fin 0) (Fin 0)
  | _ =>
      let sorted := sort values in
      let mean := Num.div (sum sorted) (Num.of_nat (length sorted)) in
      let squaredDiffs := map (fun x => Num.Math_pow_2 (Num.sub x mean)) sorted in
      let variance := Num.div (sum squaredDiffs) (Num.of_Z (Z.of_nat (length sorted) - 1)) in
      let std := Num.Math_sqrt sqrt_fin variance in
      let mid := (length sorted / 2)%nat in
      let median :=
        if negb (length sorted mod 2 =? 0)%nat
        then nth mid sorted NaN
        else Num.div (Num.add (nth (mid - 1) sorted NaN) (nth mid sorted NaN)) (Fin 2) in
      Stats.mk (Num.Math_min_list sorted) (Num.Math_max_list sorted) mean median std
  end.

(** *** The correlation engine *)

(** [correlationMatrix[j][i]] for a row [j] that is complete. *)
Definition cell (m : list (list number)) (j i : nat) : number :=
  match m !! j with
  | Some row => default NaN (row !! i)
  | None => NaN
  end.

(** Body of the inner loop: the value stored at [(i, j)], where [m]
    holds the rows before [i]. *)
Definition correlationCell (m : list (list number)) (i j : nat) (k : nat)
    : number * nat :=
  if (i =? j)%nat then (Fin 1, k)
  else if (i <? j)%nat then
    let '(r, k1) := Math_random k in
    (Num.div
       (Num.Math_round
          (Num.mul (Num.sub (Num.mul r (Fin 1.4%Q)) (Fin 0.5%Q)) (Fin 100)))
       (Fin 100), k1)
  else (cell m j i, k).

(** The inner loop over the columns [js] of row [i]. *)
Fixpoint correlationRow (m : list (list number)) (i : nat) (js : list nat)
    (k : nat) : list number * nat :=
  match js with
  | [] => ([], k)
  | j :: js' =>
      let '(x, k1) := correlationCell m i j k in
      let '(row, k2) := correlationRow m i js' k1 in
      (x :: row, k2)
  end.

(** The outer loop over the rows [rs], appending each to [m]. *)
Fixpoint correlationRows (n : nat) (m : list (list number)) (rs : list nat)
    (k : nat) : list (list number) * nat :=
  match rs with
  | [] => (m, k)
  | i :: rs' =>
      let '(row, k1) := correlationRow m i (seq 0 n) k in
      correlationRows n (m ++ [row]) rs' k1
  end.

Definition calculateCorrelations (features : list (string * list number))
    (k : nat) : Correlations * nat :=
  let featureNames := map fst features in
  let n := length featureNames in
  let '(correlationMatrix, k1) := correlationRows n [] (seq 0 n) k in
  (mkCorrelations featureNames correlationMatrix, k1).

(** *** The label resolver and the metrics *)

(** Body of the first [rows.forEach]. *)
Definition tallyRow (hasAmount hasClass : bool) (acc : Tally)
    (row : gmap string value) : Tally :=
  let '(genuine, fraudulent) :=
    if hasClass && isClassOne row
    then (tally_genuine acc, tally_fraudulent acc + 1)
    else if hasClass
         then (tally_genuine acc + 1, tally_fraudulent acc)
         else (tally_genuine acc, tally_fraudulent acc) in
  let amounts :=
    if hasAmount && negb (isNaN (row !! "Amount"))
    then tally_amounts acc ++ [parseFloat (row !! "Amount")]
    else tally_amounts acc in
  let vFeatures :=
    fold_left
      (fun fs key =>
         match row !! key with
         | Some v =>
             if negb (isNaN (Some v)) then push_feature key (parseFloat (Some v)) fs
             else fs
         | None => fs
         end)
      vKeys (tally_vFeatures acc) in
  mkTally genuine fraudulent amounts vFeatures.

(** Second [forEach] when there is no [Class] column. *)
Fixpoint simulateRows (fraudulentCount : Z) (index : nat)
    (rows : list (gmap string value)) (k : nat)
    : list (gmap string value) * nat :=
  match rows with
  | [] => ([], k)
  | row :: rest =>
      let row1 := <["isFraudulent" := VBool (Z.of_nat index <? fraudulentCount)]> row in
      let '(r, k1) := Math_random k in
      let row2 := <["confidence" := VNum (Num.mul r (Fin 100))]> row1 in
      let '(rest', k2) := simulateRows fraudulentCount (S index) rest k1 in
      (row2 :: rest', k2)
  end.

(** Second [forEach] when there is a [Class] column. *)
Fixpoint scoreRows (rows : list (gmap string value)) (k : nat)
    : list (gmap string value) * nat :=
  match rows with
  | [] => ([], k)
  | row :: rest =>
      let row1 := <["isFraudulent" := VBool (isClassOne row)]> row in
      let '(r, k1) := Math_random k in
      let confidence :=
        if truthy (row1 !! "isFraudulent")
        then Num.Math_max (Fin 70) (Num.mul r (Fin 100))
        else Num.Math_min (Fin 30) (Num.mul r (Fin 100)) in
      let row2 := <["confidence" := VNum confidence]> row1 in
      let '(rest', k2) := scoreRows rest k1 in
      (row2 :: rest', k2)
  end.

Definition simulatedMetrics (genuineCount fraudulentCount : Z) : Metrics :=
  mkMetrics (Fin 0.98%Q) (Fin 0.96%Q) (Fin 0.92%Q) (Fin 0.94%Q)
    (mkConfusionMatrix
       (round_count (inject_Z fraudulentCount * 0.92))
       (round_count (inject_Z genuineCount * 0.01))
       (round_count (inject_Z genuineCount * 0.99))
       (round_count (inject_Z fraudulentCount * 0.08))).

Definition analyzeTransactionData (table : RawTable) (k : nat) : Analysis * nat :=
  let headers := headers table in
  let rows := data table in
  let hasAmount := bool_decide ("Amount" ∈ headers) in
  let hasClass := bool_decide ("Class" ∈ headers) in
  let totalTransactions := Z.of_nat (length rows) in
  let acc :=
    fold_left (tallyRow hasAmount hasClass) rows
      (mkTally 0 0 [] (map (fun key => (key, [])) vKeys)) in
  let '(genuineCount, fraudulentCount, (rows', k1)) :=
    if negb hasClass then
      let fraudulentCount := floor_count (inject_Z (Z.of_nat (length rows)) * 0.2) in
      let genuineCount := Z.of_nat (length rows) - fraudulentCount in
      (genuineCount, fraudulentCount, simulateRows fraudulentCount 0 rows k)
    else
      (tally_genuine acc, tally_fraudulent acc, scoreRows rows k) in
  let amountStats := calculateStats (tally_amounts acc) in
  let '(correlations, k2) := calculateCorrelations (tally_vFeatures acc) k1 in
  let metrics := simulatedMetrics genuineCount fraudulentCount in
  (mkAnalysis totalTransactions genuineCount fraudulentCount amountStats
     metrics correlations
     (mkRawTable headers rows' (totalRows table)),
   k2).

End Pipeline.

(** ** The rest of the upload manager and the charts it feeds *)

(** [x >= y] on numbers: false as soon as one side is NaN. *)
Definition num_geb (x y : number) : bool :=
  match x, y with
  | NaN, _ | _, NaN => false
  | _, _ => negb (Num.ltb x y)
  end.

(** The width [updateProgress] gives the progress bar, in percent. *)
Definition progressWidth (percent : number) : number :=
  Num.Math_min (Fin 100) (Num.Math_max (Fin 0) percent).

Module File.
Record t : Type := mk {
  name : string;
  size : Z
}.
End File.

(** A toast: its message and its type. *)
Inductive toast : Type :=
| Toast (message type : string).

Module Manager.

(** The variables of the upload manager, and the two page sections it
    shows and hides. *)
Record state : Type := mk {
  uploadedFile : option File.t;
  processedData : option RawTable;
  analysisResults : option Analysis;
  fileInfoHidden : bool;
  resultsHidden : bool
}.

Definition updateFileInfo (st : state) : state :=
  mk (uploadedFile st) None None false true.

Definition maxSize : Z := 10 * 1024 * 1024.

(** [handleFiles(files)]: the new state and the toast shown, if any. *)
Definition handleFiles (files : list File.t) (st : state) : state * option toast :=
  match files with
  | [] => (st, None)
  | file :: _ =>
      if negb (Str.endsWith (File.name file) ".csv")
      then (st, Some (Toast "Please upload a CSV file." "error"))
      else if maxSize <? File.size file
      then (st, Some (Toast "File is too large. Maximum size is 10MB." "error"))
      else
        (updateFileInfo
           (mk (Some file) (processedData st) (analysisResults st)
               (fileInfoHidden st) (resultsHidden st)),
         None)
  end.

Definition resetFileInput (st : state) : state :=
  mk None (processedData st) (analysisResults st) true true.

End Manager.

(** The two slices of the class distribution chart:
    [[data.genuineCount || 95, data.fraudulentCount || 5]]. *)
Definition orElse (x d : Z) : Z := if x =? 0 then d else x.

Definition classDistributionData (genuineCount fraudulentCount : Z) : list Z :=
  [orElse genuineCount 95; orElse fraudulentCount 5].

(** The percentage the tooltip of that chart shows for a slice. *)
Definition tooltipPercentage (raw : Z) (dataset : list Z) : number :=
  let value := orElse raw 0 in
  let total := fold_left Z.add dataset 0 in
  Num.Math_round (Num.mul (Num.div (Num.of_Z value) (Num.of_Z total)) (Fin 100)).

Section Display.

(** [new Date(ms).toLocaleString()] and [x.toFixed(2)], whose output
    depends on the locale and on the printing of doubles. *)
Variable toLocaleString : number -> string.
Variable toFixed2 : number -> string.

Record SampleTransaction : Type := mkSampleTransaction {
  time : string;
  amount : string;
  isFraudulent : option value;
  confidence : string
}.

(** One element of [sampleTransactions]. *)
Definition sampleTransaction (row : gmap string value) : SampleTransaction :=
  mkSampleTransaction
    (if truthy (row !! "Time")
     then toLocaleString (Num.mul (ToNumber (row !! "Time")) (Fin 1000))
     else "N/A")
    (match row !! "Amount" with
     | Some v => toFixed2 (parseFloat (Some v))
     | None => "N/A"
     end)
    (row !! "isFraudulent")
    (toFixed2 (parseFloat (row !! "confidence"))).

(** [rows.slice(0, 10).map(...)], on the rows as the second pass left
    them. *)
Definition sampleTransactions (rows : list (gmap string value)) : list SampleTransaction :=
  map sampleTransaction (take 10 rows).

End Display.

Section Progress.

Variable rnd : nat -> Q.

(** One run of the interval callback of [simulateProcessing]: the new
    progress, the width shown, and whether the interval was cleared. *)
Definition progressTick (progress : number) (k : nat) : number * number * bool * nat :=
  let '(r, k1) := Math_random rnd k in
  let progress := Num.add progress (Num.mul r (Fin 10)) in
  if num_geb progress (Fin 100)
  then (Fin 100, progressWidth (Fin 100), true, k1)
  else (progress, progressWidth progress, false, k1).

(** The widths shown until the interval is cleared, within [fuel]
    ticks; [None] when it is still running after them. *)
Fixpoint simulateProcessingFrom (fuel : nat) (progress : number) (k : nat)
    : option (list number * nat) :=
  match fuel with
  | O => None
  | S fuel' =>
      let '(progress', width, finished, k1) := progressTick progress k in
      if finished then Some ([width], k1)
      else match simulateProcessingFrom fuel' progress' k1 with
           | Some (widths, k2) => Some (width :: widths, k2)
           | None => None
           end
  end.

Definition simulateProcessing (fuel : nat) (k : nat) : option (list number * nat) :=
  simulateProcessingFrom fuel (Fin 0) k.

End Progress.

(** ** The design's wording, for comparison *)

(** The field conversion as the design words it: a number exactly when
    the whole trimmed field is a numeral, the trimmed string otherwise. *)
Definition spec_convert (field : string) : value :=
  let t := Str.trim field in
  match Lit.scan_decimal t with
  | Some (n, EmptyString) => VNum n
  | _ => VStr t
  end.

(** A rate as the design derives it from counts: the quotient, and 0
    when the denominator is 0. *)
Definition spec_rate (num den : Z) : number :=
  if den =? 0 then Fin 0 else Num.div (Num.of_Z num) (Num.of_Z den).

Definition spec_accuracy (c : ConfusionMatrix) (total : Z) : number :=
  spec_rate (truePositives c + trueNegatives c) total.

Definition spec_precision (c : ConfusionMatrix) : number :=
  spec_rate (truePositives c) (truePositives c + falsePositives c).

Definition spec_recall (c : ConfusionMatrix) : number :=
  spec_rate (truePositives c) (truePositives c + falseNegatives c).

Definition spec_f1 (c : ConfusionMatrix) : number :=
  let p := spec_precision c in
  let r := spec_recall c in
  match Num.add p r with
  | Fin d => if Qeq_bool d 0 then Fin 0
             else Num.div (Num.mul (Num.mul (Fin 2) p) r) (Fin d)
  | s => Num.div (Num.mul (Num.mul (Fin 2) p) r) s
  end.

(** ** Predicates used in the statements *)

(** A finite number between two rational bounds. *)
Definition between (lo hi : Q) (x : number) : Prop :=
  exists q : Q, x = Fin q /\ (lo <= q <= hi)%Q.

(** The recogniser of a numeric prefix: an optional sign, then
    [Infinity], a digit, or a point followed by a digit. *)
Definition starts_unsigned (s : string) : bool :=
  Str.startsWith s "Infinity" ||
  match s with
  | String c s' =>
      Lit.is_digit c ||
      (Ascii.eqb c "." && match s' with String d _ => Lit.is_digit d | EmptyString => false end)
  | EmptyString => false
  end.

Definition starts_numeral (s : string) : bool :=
  match s with
  | String "+" r => starts_unsigned r
  | String "-" r => starts_unsigned r
  | _ => starts_unsigned s
  end.

(** What holds of the rows of the correlation matrix built so far, for
    [n] features: every row is complete, its diagonal cell is 1, its
    other cells are placeholders in range, and the cells of two built
    rows mirror each other. *)
Definition correlation_invariant (n : nat) (m : list (list number)) : Prop :=
  (forall (a : nat) (row : list number), m !! a = Some row -> length row = n) /\
  (forall a : nat, (a < length m)%nat -> (a < n)%nat -> cell m a a = Fin 1) /\
  (forall a b : nat, (a < length m)%nat -> (b < n)%nat -> a <> b ->
     between (- (1 # 2)) (9 # 10) (cell m a b)) /\
  (forall a b : nat, (a < length m)%nat -> (b < length m)%nat -> cell m a b = cell m b a).

(** A list of finite numbers that never decrease, from [lo] up to 100. *)
Fixpoint ascending_from (lo : Q) (l : list number) : Prop :=
  match l with
  | [] => True
  | x :: l' => exists q : Q, x = Fin q /\ (lo <= q <= 100)%Q /\ ascending_from q l'
  end.

(** A text made of white space only. *)
Definition all_ws (s : string) : Prop :=
  Forall (fun c => Str.is_ws c = true) (list_ascii_of_string s).

(** A text with no white space at either end. *)
Definition tight (s : string) : Prop :=
  Str.trimStart s = s /\ Str.trimEnd s = s.

(** The character occurs in the text. *)
Fixpoint has_char (c : ascii) (s : string) : bool :=
  match s with
  | String d s' => Ascii.eqb d c || has_char c s'
  | EmptyString => false
  end.

(** A row carries the fraud flag. *)
Definition flagged (row : gmap string value) : bool :=
  match row !! "isFraudulent" with
  | Some (VBool true) => true
  | _ => false
  end.


(** ** Sample inputs *)

Definition nl : string := String "010" EmptyString.

(** A square root truncated to six decimals, and a stream of draws in
    [0, 1), to run the pipeline on concrete files. *)
Definition sqrt6 (q : Q) : Q := Z.sqrt (Qfloor (q * 1000000000000)) # 1000000.
Definition rnd37 (k : nat) : Q := Z.of_nat ((k * 37) mod 100) # 100.

(** A stream whose every draw is one half. *)
Definition rnd_half (k : nat) : Q := 1 # 2.

(** A file of one [Class] column with fifty genuine rows. *)
Definition fifty_genuine : string :=
  String.concat nl ("Class" :: repeat "0"%string 50).

Definition header_only : string := "Time,Amount,Class" ++ nl.

(** A file of one [Amount] column with a single row. *)
Definition single_amount : string := "Amount" ++ nl ++ "5".

(** A file whose second data line has no amount. *)
Definition missing_amount : string :=
  String.concat nl ["Class,Amount"; "0,5"; "1"]%string.



Definition three_labeled : string :=
  String.concat nl ["Time,Amount,Class"; "0,100,1"; "0,50,0"; "0,75,0"]%string.

Definition ten_unlabeled : string :=
  String.concat nl ("Time,Amount" :: map (fun i => pretty i +:+ "," +:+ pretty (i * 10)%nat) (seq 0 10)).

(** The table a file parses to (empty when the parser throws). *)
Definition table_of (csvData : string) : RawTable :=
  match parseCSV csvData with
  | Ok t => t
  | Throw _ => mkRawTable [] [] 0
  end.

(** The analysis of a file with the sample square root and draws. *)
Definition sample_run (csvData : string) : Analysis :=
  fst (analyzeTransactionData sqrt6 rnd37 (table_of csvData) 0).

(** * Properties *)

(** ** The row parser *)

Lemma filter_all_blank (ls : list string) :
  Forall (fun line => Str.trim line = EmptyString) ls ->
  List.filter (fun line => negb (is_blank line)) ls = [].
Proof.
  induction 1 as [|line ls Hb _ IH]; simpl; [reflexivity|].
  unfold is_blank at 1. rewrite Hb. simpl. exact IH.
Qed.

(** C4 (as the code has it): when every line of the input is blank after
    trimming, the parser does not return a table: reading the header
    line finds none and the run throws a TypeError. *)
Theorem parseCSV_blank_throws_TypeError (csvData : string) :
  Forall (fun line => Str.trim line = EmptyString) (Str.split "010" csvData) ->
  parseCSV csvData = Throw TypeError.
Proof.
  intros Hblank. unfold parseCSV, nonblank_lines.
  rewrite (filter_all_blank _ Hblank). reflexivity.
Qed.

Lemma parseCSV_blank_throws_TypeError_witness :
  parseCSV (nl ++ "   " ++ nl) = Throw TypeError.
Proof.
  apply parseCSV_blank_throws_TypeError.
  repeat constructor.
Defined.

(** C4 (as stated) fails: on the empty input, whose only line is blank,
    the error raised is not a ParseError. *)
Lemma parseCSV_blank_not_ParseError :
  Forall (fun line => Str.trim line = EmptyString) (Str.split "010" EmptyString) /\
  parseCSV EmptyString <> Throw ParseError.
Proof.
  split; [repeat constructor|].
  vm_compute. discriminate.
Qed.

Lemma parseField_absent : parseField None = VStr EmptyString.
Proof. reflexivity. Qed.







(** No header line makes a row hold anything under [__proto__]. *)
Lemma parseRow_lookup_proto (hs values : list string) (entry : gmap string value) :
  parseRow hs values entry !! proto_key = entry !! proto_key.
Proof.
  revert values entry.
  induction hs as [|h hs IH]; intros values entry; cbn [parseRow]; [reflexivity|].
  rewrite IH. unfold assign.
  destruct (String.eqb_spec h proto_key) as [_|Hne]; [reflexivity|].
  by apply lookup_insert_ne.
Qed.














(** *** Which fields are stored as numbers *)

Ltac ascii_cases c := destruct c as [[] [] [] [] [] [] [] []].

Lemma scan_fraction_other (c : ascii) (s : string) :
  c <> "."%char -> Lit.scan_fraction (String c s) = (EmptyString, String c s).
Proof. intros Hc. ascii_cases c; try reflexivity. congruence. Qed.

Lemma neg_not_NaN (n : number) : n <> NaN -> Num.neg n <> NaN.
Proof. destruct n; simpl; congruence. Qed.

Lemma scan_unsigned_spec (s : string) :
  match Lit.scan_unsigned s with
  | Some (n, _) => starts_unsigned s = true /\ n <> NaN
  | None => starts_unsigned s = false
  end.
Proof.
  unfold Lit.scan_unsigned, starts_unsigned.
  destruct (Str.startsWith s "Infinity"); [split; [reflexivity | discriminate]|].
  destruct s as [|c s]; [reflexivity|].
  simpl. destruct (Lit.is_digit c) eqn:Hd.
  - destruct (Lit.span_digits s) as [d r].
    destruct (Lit.scan_fraction r) as [fp r2]. simpl.
    destruct (Lit.scan_exponent r2) as [[e r3]|]; split; (reflexivity || discriminate).
  - destruct (ascii_dec c ".") as [->|Hc].
    + simpl. destruct s as [|d s]; [reflexivity|].
      simpl. destruct (Lit.is_digit d); [|reflexivity].
      destruct (Lit.span_digits s) as [fp r2]. simpl.
      destruct (Lit.scan_exponent r2) as [[e r3]|]; split; (reflexivity || discriminate).
    + rewrite scan_fraction_other by assumption. simpl.
      apply Ascii.eqb_neq in Hc. rewrite Hc. reflexivity.
Qed.

Lemma scan_decimal_spec (s : string) :
  match Lit.scan_decimal s with
  | Some (n, _) => starts_numeral s = true /\ n <> NaN
  | None => starts_numeral s = false
  end.
Proof.
  destruct s as [|c s]; [exact (scan_unsigned_spec EmptyString)|].
  unfold Lit.scan_decimal, starts_numeral.
  ascii_cases c; cbv beta iota;
    try (match goal with
         | |- context [starts_unsigned ?x] => exact (scan_unsigned_spec x)
         end).
  pose proof (scan_unsigned_spec s) as H.
  destruct (Lit.scan_unsigned s) as [[n r]|]; [|exact H].
  destruct H as [H1 H2]. split; [exact H1 | by apply neg_not_NaN].
Qed.

Lemma parseFloat_isNaN (s : string) :
  Num.isNaN (Lit.parseFloat s) = negb (starts_numeral (Str.trimStart s)).
Proof.
  unfold Lit.parseFloat.
  pose proof (scan_decimal_spec (Str.trimStart s)) as H.
  destruct (Lit.scan_decimal (Str.trimStart s)) as [[n r]|].
  - destruct H as [-> Hn]. by destruct n.
  - rewrite H. reflexivity.
Qed.

(** C8 (as the code has it): the value stored for a field is a number
    exactly when its text, after leading white space, begins with a
    numeric literal, and then it is what [parseFloat] reads from that
    prefix; otherwise it is the text itself, as read.  So [12abc] is
    stored as the number 12, a text that is no number keeps its
    surrounding white space, and an absent field is the empty string. *)
Theorem parseField_numeric_prefix (v : option string) :
  parseField v =
    (if starts_numeral (Str.trimStart (fieldText v))
     then VNum (Lit.parseFloat (fieldText v))
     else VStr (fieldText v)) /\
  Num.isNaN (Lit.parseFloat (fieldText v)) =
    negb (starts_numeral (Str.trimStart (fieldText v))) /\
  parseField (Some "12abc"%string) = VNum (Fin 12) /\
  parseField (Some " abc "%string) = VStr " abc " /\
  parseField None = VStr EmptyString.
Proof.
  split; [|split; [apply parseFloat_isNaN | repeat split]].
  unfold parseField. rewrite parseFloat_isNaN.
  by destruct (starts_numeral _).
Qed.

(** C8 (as stated) fails: [12abc] is not wholly a numeral, yet a number
    is stored for it; and a text field is stored untrimmed. *)
Lemma parseField_differs_from_spec_convert :
  spec_convert "12abc" = VStr "12abc" /\
  parseField (Some "12abc"%string) <> spec_convert "12abc" /\
  parseField (Some " abc "%string) <> spec_convert " abc ".
Proof. vm_compute. repeat split; discriminate. Qed.

(** ** Arithmetic of numbers *)

Lemma floor_fifth (n : Z) : floor_count (inject_Z n * 0.2) = n / 5.
Proof.
  unfold floor_count, Qfloor. cbn.
  change (Z.pos (1 * 10)) with (5 * 2). apply Z.div_mul_cancel_r; lia.
Qed.

Lemma floor_fifth' (n : Z) : floor_count (0.2 * inject_Z n) = n / 5.
Proof.
  unfold floor_count, Qfloor. cbn.
  change (Z.pos (10 * 1)) with (5 * 2).
  rewrite (Z.mul_comm 2 n). apply Z.div_mul_cancel_r; lia.
Qed.

Lemma filter_partition_length {A : Type} (p : A -> bool) (l : list A) :
  (length (List.filter p l) + length (List.filter (fun x => negb (p x)) l))%nat = length l.
Proof.
  induction l as [|x l IH]; simpl; [reflexivity|].
  destruct (p x); simpl; lia.
Qed.

(** ** The statistics engine *)

(** C3: on the empty list every field is 0.  On a one-element list
    [[x]] the extremes and the median are [x] and the mean equals [x],
    but the deviation is NaN: the variance is [0 / (1 - 1)]. *)
Theorem calculateStats_singleton_std_NaN (sqrt_fin : Q -> Q) (x : Q) :
  calculateStats sqrt_fin [] = Stats.mk (Fin 0) (Fin 0) (Fin 0) (Fin 0) (Fin 0) /\
  Stats.min (calculateStats sqrt_fin [Fin x]) = Fin x /\
  Stats.max (calculateStats sqrt_fin [Fin x]) = Fin x /\
  Stats.median (calculateStats sqrt_fin [Fin x]) = Fin x /\
  (exists m : Q, Stats.mean (calculateStats sqrt_fin [Fin x]) = Fin m /\ (m == x)%Q) /\
  Stats.std (calculateStats sqrt_fin [Fin x]) = NaN /\
  Stats.std (calculateStats sqrt_fin [Fin x]) <> Fin 0.
Proof.
  split; [reflexivity|].
  split; [reflexivity|]. split; [reflexivity|]. split; [reflexivity|].
  split.
  { eexists. split; [reflexivity|].
    rewrite !Qred_correct.
    change (inject_Z (Z.of_nat (length (sort [Fin x])))) with 1%Q. field. }
  assert (Hstd : Stats.std (calculateStats sqrt_fin [Fin x]) = NaN).
  { cbn -[Qred Qplus Qmult Qdiv Qopp Qcompare].
    change (Qeq_bool (inject_Z (Z.of_nat 1)) 0) with false.
    cbn -[Qred Qplus Qmult Qdiv Qopp Qcompare].
    change (Qeq_bool (inject_Z (Z.of_nat 1 - 1)) 0) with true.
    cbv iota.
    match goal with
    | |- context [Qcompare ?v 0] => assert (Hv : (v == 0)%Q)
    end.
    { rewrite !Qred_correct. change (inject_Z (Z.of_nat 1)) with 1%Q. field. }
    apply Qeq_alt in Hv. rewrite Hv. reflexivity. }
  rewrite Hstd. split; [reflexivity | discriminate].
Qed.

(** ** The label resolver and the metrics *)

Section Analysis.

Variable sqrt_fin : Q -> Q.
Variable rnd : nat -> Q.
Hypothesis rnd_range : forall k : nat, (0 <= rnd k < 1)%Q.

Local Abbreviation analyze := (analyzeTransactionData sqrt_fin rnd).

(** The fields of the result in terms of the two modes. *)
Lemma analyze_unlabeled (table : RawTable) (k : nat) :
  "Class" ∉ headers table ->
  let n := Z.of_nat (length (data table)) in
  let fraudulent := floor_count (inject_Z n * 0.2) in
  let a := fst (analyze table k) in
  totalTransactions a = n /\
  fraudulentCount a = fraudulent /\
  genuineCount a = n - fraudulent /\
  data (processedData a) = fst (simulateRows rnd fraudulent 0 (data table) k) /\
  metrics a = simulatedMetrics (n - fraudulent) fraudulent.
Proof.
  intros Hcls. unfold analyzeTransactionData.
  rewrite (bool_decide_eq_false_2 _ Hcls). cbn [negb].
  destruct (simulateRows _ _ _ _ _) as [rows' k1].
  destruct (calculateCorrelations _ _ _) as [c k2].
  cbn. repeat split; reflexivity.
Qed.

Lemma analyze_labeled (table : RawTable) (k : nat) :
  "Class" ∈ headers table ->
  let acc := fold_left (tallyRow (bool_decide ("Amount" ∈ headers table)) true) (data table)
               (mkTally 0 0 [] (map (fun key => (key, [])) vKeys)) in
  let a := fst (analyze table k) in
  totalTransactions a = Z.of_nat (length (data table)) /\
  fraudulentCount a = tally_fraudulent acc /\
  genuineCount a = tally_genuine acc /\
  data (processedData a) = fst (scoreRows rnd (data table) k) /\
  metrics a = simulatedMetrics (tally_genuine acc) (tally_fraudulent acc).
Proof.
  intros Hcls. unfold analyzeTransactionData.
  rewrite (bool_decide_eq_true_2 _ Hcls). cbn [negb].
  destruct (scoreRows _ _ _) as [rows' k1].
  destruct (calculateCorrelations _ _ _) as [c k2].
  cbn. repeat split; reflexivity.
Qed.

Lemma analyze_metrics (table : RawTable) (k : nat) :
  metrics (fst (analyze table k)) =
    simulatedMetrics (genuineCount (fst (analyze table k)))
                     (fraudulentCount (fst (analyze table k))).
Proof.
  destruct (decide ("Class" ∈ headers table)) as [Hcls|Hcls].
  - destruct (analyze_labeled table k Hcls) as (_ & -> & -> & _ & ->). reflexivity.
  - destruct (analyze_unlabeled table k Hcls) as (_ & -> & -> & _ & ->). reflexivity.
Qed.

(** The two parts of the fraudulent tally add up to it. *)
Lemma round_split_fraudulent (f : Z) :
  round_count (inject_Z f * 0.92) + round_count (inject_Z f * 0.08) = f.
Proof.
  unfold round_count, Qfloor. cbn.
  Z.to_euclidean_division_equations. lia.
Qed.

(** The two parts of the genuine tally add up to it except at a tie,
    where both are rounded up. *)
Lemma round_split_genuine (g : Z) :
  round_count (inject_Z g * 0.99) + round_count (inject_Z g * 0.01) =
    if g mod 100 =? 50 then g + 1 else g.
Proof.
  unfold round_count, Qfloor. cbn.
  destruct (Z.eqb_spec (g mod 100) 50);
    Z.to_euclidean_division_equations; lia.
Qed.

Lemma confusion_counts_sums (table : RawTable) (k : nat) :
  let a := fst (analyze table k) in
  let c := confusionMatrix (metrics a) in
  truePositives c + falseNegatives c = fraudulentCount a /\
  trueNegatives c + falsePositives c =
    if genuineCount a mod 100 =? 50 then genuineCount a + 1 else genuineCount a.
Proof.
  cbv zeta. rewrite analyze_metrics. cbn [simulatedMetrics confusionMatrix
    truePositives falseNegatives trueNegatives falsePositives].
  split; [apply round_split_fraudulent | apply round_split_genuine].
Qed.

(** C1 (as the code has it): whatever the table and the confusion
    counts, the four rates of a run are the constants 0.98, 0.96, 0.92
    and 0.94, each in [0, 1]. *)
Theorem metrics_are_constants (table : RawTable) (k : nat) :
  let m := metrics (fst (analyze table k)) in
  accuracy m = Fin 0.98%Q /\ precision m = Fin 0.96%Q /\
  recall m = Fin 0.92%Q /\ f1Score m = Fin 0.94%Q /\
  between 0 1 (accuracy m) /\ between 0 1 (precision m) /\
  between 0 1 (recall m) /\ between 0 1 (f1Score m).
Proof.
  cbv zeta. rewrite analyze_metrics. cbn.
  repeat split; try reflexivity;
    (eexists; split; [reflexivity | split; vm_compute; discriminate]).
Qed.

Lemma tally_counts (hasAmount : bool) (rows : list (gmap string value)) (acc : Tally) :
  let r := fold_left (tallyRow hasAmount true) rows acc in
  tally_fraudulent r = tally_fraudulent acc + Z.of_nat (length (List.filter isClassOne rows)) /\
  tally_genuine r =
    tally_genuine acc + Z.of_nat (length (List.filter (fun row => negb (isClassOne row)) rows)).
Proof.
  revert acc. induction rows as [|row rows IH]; intros acc; simpl.
  - lia.
  - destruct (IH (tallyRow hasAmount true acc row)) as [-> ->].
    unfold tallyRow. cbn [andb].
    destruct (isClassOne row); cbn [tally_fraudulent tally_genuine length List.filter negb]; lia.
Qed.

(** C10: with a [Class] column, the rows whose class is the number 1 or
    the string "1" are the fraudulent ones and all the others are
    genuine, so the two tallies add up to the number of rows. *)
Theorem labeled_tallies_cover_rows (table : RawTable) (k : nat) :
  "Class" ∈ headers table ->
  let a := fst (analyze table k) in
  fraudulentCount a = Z.of_nat (length (List.filter isClassOne (data table))) /\
  genuineCount a =
    Z.of_nat (length (List.filter (fun row => negb (isClassOne row)) (data table))) /\
  genuineCount a + fraudulentCount a = totalTransactions a.
Proof.
  intros Hcls.
  destruct (analyze_labeled table k Hcls) as (Ht & Hf & Hg & _).
  cbv zeta. rewrite Ht, Hf, Hg.
  destruct (tally_counts (bool_decide ("Amount" ∈ headers table)) (data table)
              (mkTally 0 0 [] (map (fun key => (key, [])) vKeys))) as [-> ->].
  simpl.
  pose proof (filter_partition_length isClassOne (data table)).
  repeat split; lia.
Qed.

Lemma draw_scaled_range (k : nat) :
  exists q : Q, Num.mul (Fin (rnd k)) (Fin 100) = Fin q /\ (q == rnd k * 100)%Q /\ (0 <= q <= 100)%Q.
Proof.
  exists (Qred (rnd k * 100)). split; [reflexivity|].
  pose proof (rnd_range k). rewrite Qred_correct. split; [reflexivity | lra].
Qed.

Lemma flagged_after_marking (row : gmap string value) (b : bool) (c : value) :
  flagged (<["confidence" := c]> (<["isFraudulent" := VBool b]> row)) = b.
Proof.
  unfold flagged. rewrite lookup_insert_ne by discriminate.
  rewrite lookup_insert_eq. by destruct b.
Qed.

Lemma simulateRows_spec (fraudulent : Z) (rows : list (gmap string value)) (index k : nat) :
  length (fst (simulateRows rnd fraudulent index rows k)) = length rows /\
  forall (i : nat) (row : gmap string value),
    rows !! i = Some row ->
    fst (simulateRows rnd fraudulent index rows k) !! i =
      Some (<["confidence" := VNum (Num.mul (Fin (rnd (k + i))) (Fin 100))]>
              (<["isFraudulent" := VBool (Z.of_nat (index + i) <? fraudulent)]> row)).
Proof.
  revert index k. induction rows as [|row0 rows IH]; intros index k.
  - split; [reflexivity | intros i row Hi; discriminate].
  - cbn [simulateRows Math_random].
    destruct (IH (S index) (S k)) as [Hlen Hrows].
    destruct (simulateRows rnd fraudulent (S index) rows (S k)) as [rest' k2].
    cbn [fst] in *. split; [simpl; lia|].
    intros [|i] row Hi; cbn in Hi.
    + injection Hi as <-. rewrite !Nat.add_0_r. reflexivity.
    + rewrite <- !Nat.add_succ_comm. exact (Hrows i row Hi).
Qed.

Lemma simulateRows_flagged (fraudulent : Z) (rows : list (gmap string value)) (index k : nat) :
  length (List.filter flagged (fst (simulateRows rnd fraudulent index rows k))) =
    Z.to_nat (Z.min (Z.of_nat (length rows)) (fraudulent - Z.of_nat index)).
Proof.
  revert index k. induction rows as [|row0 rows IH]; intros index k.
  - simpl. lia.
  - cbn [simulateRows Math_random].
    specialize (IH (S index) (S k)).
    destruct (simulateRows rnd fraudulent (S index) rows (S k)) as [rest' k2].
    cbn [fst List.filter length] in *.
    rewrite flagged_after_marking.
    destruct (Z.ltb_spec (Z.of_nat index) fraudulent); cbn [length]; lia.
Qed.

(** C5: without a [Class] column, the number of rows marked fraudulent
    is [floor (0.2 * n)] for [n] rows, they are the first ones in
    source order and all the others are marked genuine; ten rows give
    two; and the confidence of every row is a draw scaled to [0, 100],
    whatever its mark. *)
Theorem unlabeled_marks_first_fifth (table : RawTable) (k : nat) :
  "Class" ∉ headers table ->
  let n := Z.of_nat (length (data table)) in
  let a := fst (analyze table k) in
  let rows' := data (processedData a) in
  fraudulentCount a = floor_count (0.2 * inject_Z n) /\
  fraudulentCount a = n / 5 /\
  genuineCount a = n - fraudulentCount a /\
  length rows' = length (data table) /\
  length (List.filter flagged rows') = Z.to_nat (fraudulentCount a) /\
  (forall (i : nat) (row' : gmap string value),
      rows' !! i = Some row' ->
      row' !! "isFraudulent" = Some (VBool (Z.of_nat i <? fraudulentCount a)) /\
      row' !! "confidence" = Some (VNum (Num.mul (Fin (rnd (k + i))) (Fin 100))) /\
      between 0 100 (Num.mul (Fin (rnd (k + i))) (Fin 100))) /\
  (n = 10 -> fraudulentCount a = 2).
Proof.
  intros Hcls n a rows'.
  destruct (analyze_unlabeled table k Hcls) as (_ & Hf & Hg & Hrows & _).
  fold a in Hf, Hg, Hrows. fold n in Hf, Hg, Hrows. fold rows' in Hrows.
  assert (Hn : n = Z.of_nat (length (data table))) by reflexivity.
  clearbody n a rows'.
  assert (Hfifth : fraudulentCount a = n / 5).
  { rewrite Hf. apply floor_fifth. }
  destruct (simulateRows_spec (fraudulentCount a) (data table) 0 k) as [Hlen Hrow].
  rewrite <- Hf in Hrows. rewrite <- Hrows in Hlen, Hrow.
  split; [|split; [exact Hfifth|split; [by rewrite Hg, Hf|split; [exact Hlen|split; [|split]]]]].
  - rewrite Hfifth. symmetry. apply floor_fifth'.
  - rewrite Hrows, simulateRows_flagged.
    assert (0 <= n / 5 <= n).
    { split; [apply Z.div_pos | apply Z.div_le_upper_bound]; lia. }
    lia.
  - intros i row' Hi.
    destruct (lookup_lt_is_Some_2 (data table) i) as [row Hrow0].
    { rewrite <- Hlen. by apply lookup_lt_Some with row'. }
    rewrite (Hrow i row Hrow0) in Hi. injection Hi as <-.
    split; [|split].
    + rewrite lookup_insert_ne by discriminate. apply lookup_insert_eq.
    + apply lookup_insert_eq.
    + destruct (draw_scaled_range (k + i)) as (q & Hq & _ & Hrange).
      exists q. split; assumption.
  - intros H10. rewrite Hfifth, H10. reflexivity.
Qed.



End Analysis.

(** ** The correlation engine *)

Section Correlation.

Variable rnd : nat -> Q.
Hypothesis rnd_range : forall k : nat, (0 <= rnd k < 1)%Q.

(** The placeholder drawn for a cell above the diagonal. *)
Lemma placeholder_range (k : nat) :
  between (- (1 # 2)) (9 # 10)
    (Num.div
       (Num.Math_round
          (Num.mul (Num.sub (Num.mul (Fin (rnd k)) (Fin 1.4%Q)) (Fin 0.5%Q)) (Fin 100)))
       (Fin 100)).
Proof.
  pose proof (rnd_range k) as Hr.
  unfold Num.mul, Num.sub, Num.add, Num.neg, Num.Math_round, Num.of_Z, Num.div.
  change (Qeq_bool 100 0) with false. cbv iota.
  match goal with |- context [round_count ?x] => set (c := x) end.
  assert (Hc : (-50 <= c < 90)%Q).
  { unfold c. rewrite !Qred_correct. lra. }
  clearbody c.
  assert (Hz : -50 <= round_count c <= 90).
  { unfold round_count. split.
    - change (-50) with (Qfloor (inject_Z (-50))).
      apply Qfloor_resp_le. change (inject_Z (-50)) with (-50)%Q. lra.
    - change 90 with (Qfloor (181 # 2)).
      apply Qfloor_resp_le. lra. }
  eexists. split; [reflexivity|].
  rewrite Qred_correct.
  destruct Hz as [Hlo Hhi].
  rewrite Zle_Qle in Hlo, Hhi.
  change (inject_Z (-50)) with (-50)%Q in Hlo.
  change (inject_Z 90) with 90%Q in Hhi.
  unfold Qdiv. change (/ 100)%Q with (1 # 100)%Q.
  split; lra.
Qed.

Lemma correlationCell_spec (m : list (list number)) (i j k : nat) :
  let x := fst (correlationCell rnd m i j k) in
  (i = j -> x = Fin 1) /\
  ((i < j)%nat -> between (- (1 # 2)) (9 # 10) x) /\
  ((j < i)%nat -> x = cell m j i).
Proof.
  unfold correlationCell.
  destruct (Nat.eqb_spec i j) as [Heq|Hne]; cbn [fst].
  - split; [reflexivity | split; intros; lia].
  - destruct (Nat.ltb_spec i j) as [Hlt|Hge]; cbn [Math_random fst].
    + split; [intros; lia | split; [intros _; apply placeholder_range | intros; lia]].
    + split; [intros; lia | split; [intros; lia | reflexivity]].
Qed.

Lemma correlationRow_spec (m : list (list number)) (i : nat) (js : list nat) (k : nat) :
  length (fst (correlationRow rnd m i js k)) = length js /\
  forall p j : nat,
    js !! p = Some j ->
    exists x : number,
      fst (correlationRow rnd m i js k) !! p = Some x /\
      (i = j -> x = Fin 1) /\
      ((i < j)%nat -> between (- (1 # 2)) (9 # 10) x) /\
      ((j < i)%nat -> x = cell m j i).
Proof.
  revert k. induction js as [|j0 js IH]; intros k.
  - split; [reflexivity | intros p j Hp; discriminate].
  - cbn [correlationRow].
    pose proof (correlationCell_spec m i j0 k) as Hcell.
    destruct (correlationCell rnd m i j0 k) as [x k1].
    destruct (IH k1) as [Hlen Hrow].
    destruct (correlationRow rnd m i js k1) as [row k2].
    cbn [fst] in *. split; [simpl; lia|].
    intros [|p] j Hp; cbn in Hp.
    + injection Hp as <-. exists x. split; [reflexivity | exact Hcell].
    + exact (Hrow p j Hp).
Qed.

Lemma cell_app_l (m : list (list number)) (row : list number) (a b : nat) :
  (a < length m)%nat -> cell (m ++ [row]) a b = cell m a b.
Proof. intros Ha. unfold cell. by rewrite lookup_app_l. Qed.

Lemma cell_app_last (m : list (list number)) (row : list number) (b : nat) :
  cell (m ++ [row]) (length m) b = default NaN (row !! b).
Proof.
  unfold cell. rewrite lookup_app_r by lia.
  by rewrite Nat.sub_diag.
Qed.

Lemma correlation_invariant_step (n : nat) (m : list (list number)) (row : list number) :
  (length m < n)%nat ->
  correlation_invariant n m ->
  length row = n ->
  (forall j : nat, (j < n)%nat ->
     exists x : number,
       row !! j = Some x /\
       (length m = j -> x = Fin 1) /\
       ((length m < j)%nat -> between (- (1 # 2)) (9 # 10) x) /\
       ((j < length m)%nat -> x = cell m j (length m))) ->
  correlation_invariant n (m ++ [row]).
Proof.
  intros Hi (Hlen & Hdiag & Hrange & Hsym) Hrowlen Hrow.
  assert (Hlast : forall b : nat, (b < n)%nat ->
            (length m = b -> cell (m ++ [row]) (length m) b = Fin 1) /\
            ((length m < b)%nat ->
               between (- (1 # 2)) (9 # 10) (cell (m ++ [row]) (length m) b)) /\
            ((b < length m)%nat -> cell (m ++ [row]) (length m) b = cell m b (length m))).
  { intros b Hb. rewrite cell_app_last.
    destruct (Hrow b Hb) as (x & -> & H1 & H2 & H3). exact (conj H1 (conj H2 H3)). }
  unfold correlation_invariant. rewrite length_app. cbn [length].
  split; [|split; [|split]].
  - intros a r Ha.
    destruct (decide (a < length m)%nat) as [Hlt|Hge].
    + rewrite lookup_app_l in Ha by assumption. by apply (Hlen a).
    + rewrite lookup_app_r in Ha by lia.
      destruct (a - length m)%nat; [|destruct n0; discriminate].
      by injection Ha as <-.
  - intros a Ha Han.
    destruct (decide (a < length m)%nat) as [Hlt|Hge].
    + rewrite cell_app_l by assumption. by apply Hdiag.
    + assert (a = length m) as -> by lia. by apply (Hlast (length m)).
  - intros a b Ha Hb Hab.
    destruct (decide (a < length m)%nat) as [Hlt|Hge].
    + rewrite cell_app_l by assumption. by apply Hrange.
    + assert (a = length m) as -> by lia.
      destruct (Hlast b Hb) as (_ & Habove & Hbelow).
      destruct (decide (length m < b)%nat) as [Hlt|Hge'].
      * by apply Habove.
      * rewrite Hbelow by lia. apply Hrange; lia.
  - assert (Hmirror : forall b : nat, (b < length m)%nat ->
              cell (m ++ [row]) (length m) b = cell (m ++ [row]) b (length m)).
    { intros b Hb. rewrite (cell_app_l _ _ b) by assumption.
      apply (Hlast b); lia. }
    intros a b Ha Hb.
    destruct (decide (a < length m)%nat) as [Hlta|Hgea];
      destruct (decide (b < length m)%nat) as [Hltb|Hgeb].
    + rewrite !cell_app_l by assumption. by apply Hsym.
    + assert (b = length m) as -> by lia. symmetry. by apply Hmirror.
    + assert (a = length m) as -> by lia. by apply Hmirror.
    + assert (a = b) as -> by lia. reflexivity.
Qed.

Lemma correlationRows_invariant (n : nat) (rs : list nat) (m : list (list number)) (k : nat) :
  rs = seq (length m) (length rs) ->
  (length m + length rs <= n)%nat ->
  correlation_invariant n m ->
  correlation_invariant n (fst (correlationRows rnd n m rs k)) /\
  length (fst (correlationRows rnd n m rs k)) = (length m + length rs)%nat.
Proof.
  revert m k. induction rs as [|i rs IH]; intros m k Hrs Hn Hinv.
  - cbn. split; [exact Hinv | lia].
  - cbn [length seq] in Hrs. injection Hrs as -> Hrs.
    cbn [correlationRows length] in *.
    destruct (correlationRow_spec m (length m) (seq 0 n) k) as [Hlen Hrow].
    destruct (correlationRow rnd m (length m) (seq 0 n) k) as [row k1].
    cbn [fst] in *. rewrite length_seq in Hlen.
    destruct (IH (m ++ [row]) k1) as [Hinv' Hlen'].
    + rewrite length_app. cbn [length]. rewrite Nat.add_1_r. exact Hrs.
    + rewrite length_app. cbn [length]. lia.
    + apply correlation_invariant_step; [lia | exact Hinv | exact Hlen |].
      intros j Hj. apply (Hrow j j). by apply lookup_seq_lt.
    + split; [exact Hinv'|].
      rewrite Hlen', length_app. cbn [length]. lia.
Qed.

Lemma correlation_invariant_nil (n : nat) : correlation_invariant n [].
Proof.
  repeat split; intros; try discriminate; cbn [length] in *; lia.
Qed.

(** C7: the matrix returned for [n] features has [n] rows of [n]
    cells; cell [(i, j)] equals cell [(j, i)]; a diagonal cell is
    exactly 1 and every other cell lies in [-0.5, 0.9]. *)
Theorem calculateCorrelations_symmetric (fs : list (string * list number))
    (k i j : nat) :
  let c := fst (calculateCorrelations rnd fs k) in
  let n := length fs in
  (i < n)%nat -> (j < n)%nat ->
  features c = map fst fs /\
  length (matrix c) = n /\
  exists (row_i row_j : list number) (x : number),
    matrix c !! i = Some row_i /\ length row_i = n /\
    matrix c !! j = Some row_j /\ length row_j = n /\
    row_i !! j = Some x /\ row_j !! i = Some x /\
    (i = j -> x = Fin 1) /\
    (i <> j -> between (- (1 # 2)) (9 # 10) x).
Proof.
  intros c n Hi Hj. subst c. unfold calculateCorrelations.
  rewrite length_map. fold n.
  destruct (correlationRows_invariant n (seq 0 n) [] k) as [Hinv Hlen].
  { by rewrite length_seq. }
  { rewrite length_seq. cbn. lia. }
  { apply correlation_invariant_nil. }
  destruct (correlationRows rnd n [] (seq 0 n) k) as [m k1].
  cbn [fst matrix features] in *.
  rewrite length_seq in Hlen. cbn [length] in Hlen. rewrite Nat.add_0_l in Hlen.
  destruct Hinv as (Hrowlen & Hdiag & Hrange & Hsym).
  split; [reflexivity|]. split; [exact Hlen|].
  destruct (lookup_lt_is_Some_2 m i) as [row_i Hri]; [lia|].
  destruct (lookup_lt_is_Some_2 m j) as [row_j Hrj]; [lia|].
  pose proof (Hrowlen i row_i Hri) as Hli.
  pose proof (Hrowlen j row_j Hrj) as Hlj.
  destruct (lookup_lt_is_Some_2 row_i j) as [x Hx]; [lia|].
  destruct (lookup_lt_is_Some_2 row_j i) as [y Hy]; [lia|].
  assert (Hcx : cell m i j = x) by (unfold cell; by rewrite Hri, Hx).
  assert (Hcy : cell m j i = y) by (unfold cell; by rewrite Hrj, Hy).
  assert (x = y) as <-.
  { rewrite <- Hcx, <- Hcy. apply Hsym; lia. }
  exists row_i, row_j, x.
  repeat (split; [assumption|]).
  split.
  - intros ->. rewrite <- Hcx. apply Hdiag; lia.
  - intros Hne. rewrite <- Hcx. apply Hrange; [lia | lia | exact Hne].
Qed.

End Correlation.

(** ** Runs on the sample files *)

Lemma rnd37_range (k : nat) : (0 <= rnd37 k < 1)%Q.
Proof.
  unfold rnd37, Qle, Qlt. cbn [Qnum Qden].
  pose proof (Nat.mod_upper_bound (k * 37) 100). lia.
Qed.

Lemma three_labeled_has_Class : "Class" ∈ headers (table_of three_labeled).
Proof. apply (bool_decide_eq_true_1 _). vm_compute. reflexivity. Qed.

Lemma ten_unlabeled_lacks_Class : "Class" ∉ headers (table_of ten_unlabeled).
Proof. apply (bool_decide_eq_false_1 _). vm_compute. reflexivity. Qed.

(** C1 (as stated) fails: for the file with a header and no row all
    four confusion counts are 0, so every denominator is 0, and the
    rates are not 0; for the three-row file the counts give an accuracy
    of 1 and the run reports 0.98. *)
Lemma metrics_ignore_confusion_counts :
  let a := sample_run header_only in
  let b := sample_run three_labeled in
  confusionMatrix (metrics a) = mkConfusionMatrix 0 0 0 0 /\
  totalTransactions a = 0 /\
  accuracy (metrics a) <> Fin 0 /\
  precision (metrics a) <> Fin 0 /\
  recall (metrics a) <> Fin 0 /\
  f1Score (metrics a) <> Fin 0 /\
  confusionMatrix (metrics b) = mkConfusionMatrix 1 0 2 0 /\
  spec_accuracy (confusionMatrix (metrics b)) (totalTransactions b) = Fin 1 /\
  accuracy (metrics b) <> spec_accuracy (confusionMatrix (metrics b)) (totalTransactions b) /\
  precision (metrics b) <> spec_precision (confusionMatrix (metrics b)) /\
  recall (metrics b) <> spec_recall (confusionMatrix (metrics b)) /\
  f1Score (metrics b) <> spec_f1 (confusionMatrix (metrics b)).
Proof. vm_compute. repeat split; discriminate. Qed.

(** C2: on the file of fifty genuine rows the false positives round
    [0.5] up to 1 and the true negatives round [49.5] up to 50, so the
    two add up to 51 and not to the genuine count 50. *)
Theorem confusion_counts_exceed_genuine_tally :
  let a := sample_run fifty_genuine in
  let c := confusionMatrix (metrics a) in
  totalTransactions a = 50 /\
  genuineCount a = 50 /\
  fraudulentCount a = 0 /\
  c = mkConfusionMatrix 0 1 50 0 /\
  truePositives c + falseNegatives c = fraudulentCount a /\
  trueNegatives c + falsePositives c = 51 /\
  trueNegatives c + falsePositives c <> genuineCount a.
Proof. vm_compute. repeat split; discriminate. Qed.

(** The deviation shown for a file with a single amount. *)
Lemma single_amount_std_NaN :
  amountStats (sample_run single_amount) = Stats.mk (Fin 5) (Fin 5) (Fin 5) (Fin 5) NaN.
Proof. vm_compute. reflexivity. Qed.

Lemma labeled_tallies_cover_rows_witness :
  let a := sample_run three_labeled in
  genuineCount a + fraudulentCount a = totalTransactions a.
Proof.
  apply (labeled_tallies_cover_rows sqrt6 rnd37 (table_of three_labeled) 0).
  exact three_labeled_has_Class.
Defined.

Lemma unlabeled_marks_first_fifth_witness :
  fraudulentCount (sample_run ten_unlabeled) = 2.
Proof.
  apply (unlabeled_marks_first_fifth sqrt6 rnd37 rnd37_range (table_of ten_unlabeled) 0).
  - exact ten_unlabeled_lacks_Class.
  - vm_compute. reflexivity.
Defined.


Lemma calculateCorrelations_symmetric_witness :
  exists x : number,
    cell (matrix (fst (calculateCorrelations rnd37 [("V1", []); ("V2", []); ("V3", [])] 0))) 0 2 = x /\
    cell (matrix (fst (calculateCorrelations rnd37 [("V1", []); ("V2", []); ("V3", [])] 0))) 2 0 = x /\
    between (- (1 # 2)) (9 # 10) x.
Proof.
  destruct (calculateCorrelations_symmetric rnd37 rnd37_range
              [("V1", []); ("V2", []); ("V3", [])] 0 0 2)
    as (_ & _ & row0 & row2 & x & H0 & _ & H2 & _ & H02 & H20 & _ & Hrange).
  - cbn. lia.
  - cbn. lia.
  - exists x. unfold cell. rewrite H0, H2, H02, H20.
    split; [reflexivity|]. split; [reflexivity|]. apply Hrange. discriminate.
Defined.

(** * Further properties of the upload manager and of the charts *)

(** ** Strings *)

Lemma substring_whole (s : string) : String.substring 0 (String.length s) s = s.
Proof. induction s as [|c s IH]; simpl; [reflexivity | by rewrite IH]. Qed.

Lemma substring_after (pre p : string) :
  String.substring (String.length pre) (String.length p) (pre ++ p) = p.
Proof.
  induction pre as [|c pre IH]; simpl; [apply substring_whole | exact IH].
Qed.

Lemma substring_split (s : string) (k : nat) :
  (k <= String.length s)%nat ->
  s = (String.substring 0 k s ++ String.substring k (String.length s - k) s)%string.
Proof.
  revert k. induction s as [|c s IH]; intros k Hk.
  - destruct k; [reflexivity | simpl in Hk; lia].
  - destruct k as [|k]; simpl.
    + by rewrite substring_whole.
    + simpl in Hk.
      transitivity
        (String c (String.substring 0 k s ++ String.substring k (String.length s - k) s));
        [f_equal; apply IH; lia | reflexivity].
Qed.

Lemma length_append (a b : string) :
  String.length (a ++ b) = (String.length a + String.length b)%nat.
Proof. induction a as [|c a IH]; simpl; [reflexivity | by rewrite IH]. Qed.

(** [s.endsWith(p)] holds exactly of the strings made of some text
    followed by [p]. *)
Lemma endsWith_spec (s p : string) :
  Str.endsWith s p = true <-> exists pre : string, s = (pre ++ p)%string.
Proof.
  unfold Str.endsWith. split.
  - intros H. apply andb_true_iff in H as [Hlen Heq].
    apply Nat.leb_le in Hlen. apply String.eqb_eq in Heq.
    exists (String.substring 0 (String.length s - String.length p) s).
    set (k := (String.length s - String.length p)%nat).
    transitivity
      (String.substring 0 k s ++ String.substring k (String.length s - k) s)%string;
      [apply substring_split; lia|].
    f_equal. replace (String.length s - k)%nat with (String.length p) by lia.
    exact Heq.
  - intros [pre ->]. rewrite length_append. apply andb_true_iff. split.
    + apply Nat.leb_le. lia.
    + replace (String.length pre + String.length p - String.length p)%nat
        with (String.length pre) by lia.
      rewrite substring_after. apply String.eqb_refl.
Qed.

(** ** Choosing a file *)

(** X15: A list of files whose first one is named [<text>.csv] and is at
    most 10 MiB large makes that file the upload, shows the file
    section, hides the results and forgets the parsed data and the
    analysis of the previous upload.  Any other first file changes
    nothing (the previous upload stays selected) and shows an error
    toast, the one about the extension when both tests fail.  An empty
    list does nothing. *)
Theorem handleFiles_outcome (file : File.t) (rest : list File.t) (st : Manager.state) :
  Manager.handleFiles [] st = (st, None) /\
  (((exists pre : string, File.name file = (pre ++ ".csv")%string) /\
    File.size file <= 10485760) ->
   Manager.handleFiles (file :: rest) st =
     (Manager.mk (Some file) None None false true, None)) /\
  ((forall pre : string, File.name file <> (pre ++ ".csv")%string) ->
   Manager.handleFiles (file :: rest) st =
     (st, Some (Toast "Please upload a CSV file." "error"))) /\
  (((exists pre : string, File.name file = (pre ++ ".csv")%string) /\
    10485760 < File.size file) ->
   Manager.handleFiles (file :: rest) st =
     (st, Some (Toast "File is too large. Maximum size is 10MB." "error"))).
Proof.
  split; [reflexivity|].
  unfold Manager.handleFiles, Manager.maxSize.
  destruct (Str.endsWith (File.name file) ".csv") eqn:Hext; cbn [negb].
  - split; [|split].
    + intros [_ Hsize].
      destruct (Z.ltb_spec (10 * 1024 * 1024) (File.size file)); [lia | reflexivity].
    + intros Hno. apply endsWith_spec in Hext as [pre Hpre]. by destruct (Hno pre).
    + intros [_ Hsize].
      destruct (Z.ltb_spec (10 * 1024 * 1024) (File.size file)); [reflexivity | lia].
  - assert (Hno : ~ exists pre : string, File.name file = (pre ++ ".csv")%string).
    { intros H. apply endsWith_spec in H. congruence. }
    split; [|split]; try (intros [H _]; by destruct Hno).
    reflexivity.
Qed.

(** ** The progress bar *)

Section ProgressFacts.

Variable rnd : nat -> Q.

Lemma progressWidth_fin (p : Q) :
  exists q : Q,
    progressWidth (Fin p) = Fin q /\ (0 <= q <= 100)%Q /\
    ((0 <= p <= 100)%Q -> (q == p)%Q).
Proof.
  unfold progressWidth, Num.Math_max, Num.Math_min, Num.ltb.
  destruct (Qlt_le_dec 0 p) as [H0|H0].
  - destruct (Qlt_le_dec p 100) as [H1|H1].
    + exists p. split; [reflexivity|]. split; [lra | reflexivity].
    + exists 100%Q. split; [reflexivity|]. split; [lra | intros; lra].
  - destruct (Qlt_le_dec 0 100) as [_|Hbad]; [|exfalso; lra].
    exists 0%Q. split; [reflexivity|]. split; [lra | intros; lra].
Qed.

Lemma progressTick_spec (p : Q) (k : nat) :
  (0 <= rnd k)%Q -> (0 <= p < 100)%Q ->
  exists (p' w : Q) (finished : bool),
    progressTick rnd (Fin p) k = (Fin p', Fin w, finished, S k) /\
    (p <= w <= 100)%Q /\
    (if finished then w = 100%Q /\ (100 <= p + rnd k * 10)%Q
     else (w == p')%Q /\ (p' == p + rnd k * 10)%Q /\ (p' < 100)%Q).
Proof.
  intros Hr Hp. unfold progressTick, Math_random.
  cbn [Num.mul Num.add]. unfold num_geb, Num.ltb.
  set (s := Qred (p + Qred (rnd k * 10))).
  assert (Hs : (s == p + rnd k * 10)%Q).
  { unfold s. rewrite !Qred_correct. reflexivity. }
  clearbody s.
  destruct (Qlt_le_dec s 100) as [Hlt|Hge]; cbn [negb].
  - destruct (progressWidth_fin s) as (w & -> & Hw & Hwp).
    exists s, w, false.
    split; [reflexivity|].
    assert (Hq : (w == s)%Q) by (apply Hwp; lra).
    split; [lra|]. split; [exact Hq|]. split; [exact Hs | exact Hlt].
  - exists 100%Q, 100%Q, true. split; [reflexivity|]. split; [lra|].
    split; [reflexivity | lra].
Qed.

Lemma simulateProcessingFrom_spec (fuel : nat) (p : Q) (k : nat)
    (widths : list number) (k' : nat) :
  (forall j : nat, (0 <= rnd j < 1)%Q) ->
  (0 <= p < 100)%Q ->
  simulateProcessingFrom rnd fuel (Fin p) k = Some (widths, k') ->
  ascending_from p widths /\
  last widths = Some (Fin 100) /\
  (100 - p < 10 * inject_Z (Z.of_nat (length widths)))%Q /\
  k' = (k + length widths)%nat.
Proof.
  intros Hrnd. revert p k widths k'.
  induction fuel as [|fuel IH]; intros p k widths k' Hp Hrun; [discriminate|].
  cbn [simulateProcessingFrom] in Hrun.
  destruct (Hrnd k) as [Hr0 Hr1].
  destruct (progressTick_spec p k Hr0 Hp) as (p' & w & finished & Htick & Hw & Hcase).
  rewrite Htick in Hrun.
  destruct finished.
  - injection Hrun as <- <-. destruct Hcase as [-> Hge].
    cbn [ascending_from last length]. split; [|split; [reflexivity|split]].
    + exists 100%Q. split; [reflexivity|]. split; [lra | exact I].
    + change (inject_Z (Z.of_nat 1)) with 1%Q. lra.
    + lia.
  - destruct Hcase as (Hwp & Hp' & Hlt).
    destruct (simulateProcessingFrom rnd fuel (Fin p') (S k)) as [[ws k2]|] eqn:Hrec;
      [|discriminate].
    injection Hrun as <- <-.
    assert (Hp'0 : (0 <= p' < 100)%Q) by lra.
    destruct (IH p' (S k) ws k2 Hp'0 Hrec) as (Hasc & Hlast & Hlen & Hk).
    split; [|split; [|split]].
    + cbn [ascending_from]. exists w. split; [reflexivity|]. split; [lra|].
      clear - Hasc Hwp. destruct ws as [|x ws]; [exact I|].
      cbn [ascending_from] in *. destruct Hasc as (q & Hx & Hq & Hrest).
      exists q. split; [exact Hx|]. split; [lra | exact Hrest].
    + destruct ws as [|x ws]; [discriminate | exact Hlast].
    + cbn [length]. rewrite Nat2Z.inj_succ, <- Z.add_1_r, inject_Z_plus.
      change (inject_Z 1) with 1%Q. lra.
    + cbn [length]. lia.
Qed.

(** X13: While the draws stay in [0, 1), a processing simulation that ends
    has shown widths that never decrease and stay within [0, 100], the
    last one exactly 100; it has taken at least eleven ticks, and one
    draw per tick. *)
Theorem simulateProcessing_widths (fuel k : nat) (widths : list number) (k' : nat) :
  (forall j : nat, (0 <= rnd j < 1)%Q) ->
  simulateProcessing rnd fuel k = Some (widths, k') ->
  ascending_from 0 widths /\
  last widths = Some (Fin 100) /\
  (11 <= length widths)%nat /\
  k' = (k + length widths)%nat.
Proof.
  intros Hrnd Hrun.
  destruct (simulateProcessingFrom_spec fuel 0 k widths k' Hrnd) as (Hasc & Hlast & Hlen & Hk);
    [lra | exact Hrun |].
  split; [exact Hasc|]. split; [exact Hlast|]. split; [|exact Hk].
  assert (H : (inject_Z 10 < inject_Z (Z.of_nat (length widths)))%Q).
  { change (inject_Z 10) with 10%Q. lra. }
  rewrite <- Zlt_Qlt in H. lia.
Qed.

Lemma simulateProcessingFrom_ends (m : positive) (fuel : nat) (p : Q) (k : nat) :
  (forall j : nat, (1 # m <= rnd j)%Q) ->
  (0 <= p < 100)%Q ->
  (100 - p <= (10 # m) * inject_Z (Z.of_nat fuel))%Q ->
  is_Some (simulateProcessingFrom rnd fuel (Fin p) k).
Proof.
  intros Hrnd. revert p k.
  assert (Hm : (0 < 1 # m)%Q) by reflexivity.
  assert (Hm10 : ((10 # m) == 10 * (1 # m))%Q).
  { unfold Qeq. cbn. lia. }
  induction fuel as [|fuel IH]; intros p k Hp Hfuel.
  - exfalso. change (inject_Z (Z.of_nat 0)) with 0%Q in Hfuel. lra.
  - cbn [simulateProcessingFrom].
    pose proof (Hrnd k) as Hr.
    destruct (progressTick_spec p k) as (p' & w & finished & -> & Hw & Hcase);
      [lra | exact Hp |].
    destruct finished; [eexists; reflexivity|].
    destruct Hcase as (_ & Hp' & Hlt).
    destruct (IH p' (S k)) as [[ws k2] ->]; [lra | | eexists; reflexivity].
    rewrite Nat2Z.inj_succ, <- Z.add_1_r, inject_Z_plus in Hfuel.
    change (inject_Z 1) with 1%Q in Hfuel. lra.
Qed.

Lemma simulateProcessingFrom_length (fuel : nat) (progress : number) (k : nat)
    (widths : list number) (k' : nat) :
  simulateProcessingFrom rnd fuel progress k = Some (widths, k') ->
  (length widths <= fuel)%nat.
Proof.
  revert progress k widths k'.
  induction fuel as [|fuel IH]; intros progress k widths k' Hrun; [discriminate|].
  cbn [simulateProcessingFrom] in Hrun.
  destruct (progressTick rnd progress k) as [[[p' w] finished] k1].
  destruct finished.
  - injection Hrun as <- <-. cbn [length]. lia.
  - destruct (simulateProcessingFrom rnd fuel p' k1) as [[ws k2]|] eqn:Hrec; [|discriminate].
    injection Hrun as <- <-. apply IH in Hrec. cbn [length]. lia.
Qed.

(** X14: When every draw is at least [1/m], for [m] up to 1000, the
    processing simulation ends within [10 * m + 1] ticks.  Ten times [m]
    such draws add up to 100 already; the further tick and the bound on
    [m] keep the statement true of a running sum that is rounded at
    each step. *)
Theorem simulateProcessing_ends (m : positive) (k : nat) :
  (m <= 1000)%positive ->
  (forall j : nat, (1 # m <= rnd j)%Q) ->
  exists (widths : list number) (k' : nat),
    simulateProcessing rnd (10 * Pos.to_nat m + 1) k = Some (widths, k') /\
    (length widths <= 10 * Pos.to_nat m + 1)%nat.
Proof.
  intros _ Hrnd.
  destruct (simulateProcessingFrom_ends m (10 * Pos.to_nat m + 1) 0 k Hrnd) as [[ws k'] Hrun].
  - lra.
  - rewrite Nat2Z.inj_add, Nat2Z.inj_mul, positive_nat_Z.
    unfold Qle, Qmult, Qminus, Qplus, Qopp, inject_Z. cbn. lia.
  - exists ws, k'. split; [exact Hrun|].
    by apply (simulateProcessingFrom_length _ _ _ _ _ Hrun).
Qed.

End ProgressFacts.

Lemma simulateProcessing_widths_witness :
  exists (widths : list number) (k' : nat),
    simulateProcessing rnd37 40 0 = Some (widths, k') /\
    last widths = Some (Fin 100) /\
    (11 <= length widths)%nat.
Proof.
  destruct (simulateProcessing rnd37 40 0) as [[ws k']|] eqn:Hrun;
    [|vm_compute in Hrun; discriminate].
  destruct (simulateProcessing_widths rnd37 40 0 ws k' rnd37_range Hrun)
    as (_ & Hlast & Hlen & _).
  exists ws, k'. split; [reflexivity|]. split; [exact Hlast | exact Hlen].
Defined.

Lemma simulateProcessing_ends_witness :
  exists (widths : list number) (k' : nat),
    simulateProcessing rnd_half 21 0 = Some (widths, k') /\
    (length widths <= 21)%nat.
Proof.
  apply (simulateProcessing_ends rnd_half 2 0).
  - vm_compute. discriminate.
  - intros j. unfold rnd_half. apply Qle_refl.
Defined.

(** ** The class distribution chart *)

Lemma orElse_positive (x d : Z) : 0 <= x -> 0 < d -> 0 < orElse x d.
Proof. unfold orElse. destruct (Z.eqb_spec x 0); lia. Qed.

Lemma round_count_bounds (q : Q) (lo hi : Z) :
  (inject_Z lo <= q + (1 # 2))%Q -> (q + (1 # 2) < inject_Z hi + 1)%Q ->
  lo <= round_count q <= hi.
Proof.
  intros Hlo Hhi. unfold round_count.
  pose proof (Qfloor_le (q + (1 # 2))) as Hf1.
  pose proof (Qlt_floor (q + (1 # 2))) as Hf2.
  rewrite inject_Z_plus in Hf2. change (inject_Z 1) with 1%Q in Hf2.
  split.
  - assert (H : (inject_Z lo < inject_Z (Qfloor (q + (1 # 2)) + 1))%Q).
    { rewrite inject_Z_plus. change (inject_Z 1) with 1%Q. lra. }
    rewrite <- Zlt_Qlt in H. lia.
  - assert (H : (inject_Z (Qfloor (q + (1 # 2))) < inject_Z (hi + 1))%Q).
    { rewrite inject_Z_plus. change (inject_Z 1) with 1%Q. lra. }
    rewrite <- Zlt_Qlt in H. lia.
Qed.

Lemma tooltipPercentage_fin (a t : Z) :
  0 < a -> 0 < t ->
  exists x : Q,
    (x == inject_Z a / inject_Z t * 100)%Q /\
    Num.Math_round (Num.mul (Num.div (Num.of_Z a) (Num.of_Z t)) (Fin 100)) =
      Fin (inject_Z (round_count x)).
Proof.
  intros Ha Ht. unfold Num.of_Z, Num.div.
  assert (Hnz : Qeq_bool (inject_Z t) 0 = false).
  { apply not_true_is_false. intros H. apply Qeq_bool_eq in H.
    unfold Qeq in H. cbn in H. lia. }
  rewrite Hnz. cbn [Num.mul Num.Math_round Num.of_Z].
  eexists. split; [|reflexivity].
  rewrite !Qred_correct. reflexivity.
Qed.

(** X16: When both tallies are positive the chart shows them, and the two
    percentages of its tooltip are whole numbers between 0 and 100
    that add up to 100, or to 101 when both are rounded up. *)
Theorem tooltipPercentage_sum (a b : Z) :
  0 < a -> 0 < b ->
  classDistributionData a b = [a; b] /\
  exists pa pb : Z,
    tooltipPercentage a [a; b] = Fin (inject_Z pa) /\
    tooltipPercentage b [a; b] = Fin (inject_Z pb) /\
    0 <= pa <= 100 /\ 0 <= pb <= 100 /\
    (pa + pb = 100 \/ pa + pb = 101).
Proof.
  intros Ha Hb. split.
  { unfold classDistributionData, orElse.
    destruct (Z.eqb_spec a 0); [lia|]. destruct (Z.eqb_spec b 0); [lia|]. reflexivity. }
  unfold tooltipPercentage, orElse. cbn [fold_left].
  destruct (Z.eqb_spec a 0); [lia|]. destruct (Z.eqb_spec b 0); [lia|].
  rewrite Z.add_0_l.
  destruct (tooltipPercentage_fin a (a + b)) as (x & Hx & ->); [lia | lia |].
  destruct (tooltipPercentage_fin b (a + b)) as (y & Hy & ->); [lia | lia |].
  exists (round_count x), (round_count y).
  split; [reflexivity|]. split; [reflexivity|].
  assert (Ht : (0 < inject_Z (a + b))%Q).
  { change 0%Q with (inject_Z 0). rewrite <- Zlt_Qlt. lia. }
  assert (Hqa : (0 < inject_Z a)%Q).
  { change 0%Q with (inject_Z 0). rewrite <- Zlt_Qlt. lia. }
  assert (Hqb : (0 < inject_Z b)%Q).
  { change 0%Q with (inject_Z 0). rewrite <- Zlt_Qlt. lia. }
  assert (Hsum : (x + y == 100)%Q).
  { rewrite Hx, Hy, inject_Z_plus. field. rewrite <- inject_Z_plus. lra. }
  assert (Hx0 : (0 < x)%Q).
  { rewrite Hx. apply Qmult_lt_0_compat; [|reflexivity].
    apply Qlt_shift_div_l; [exact Ht | lra]. }
  assert (Hy0 : (0 < y)%Q).
  { rewrite Hy. apply Qmult_lt_0_compat; [|reflexivity].
    apply Qlt_shift_div_l; [exact Ht | lra]. }
  pose proof (Qfloor_le (x + (1 # 2))) as Hx1.
  pose proof (Qlt_floor (x + (1 # 2))) as Hx2.
  pose proof (Qfloor_le (y + (1 # 2))) as Hy1.
  pose proof (Qlt_floor (y + (1 # 2))) as Hy2.
  rewrite inject_Z_plus in Hx2, Hy2. change (inject_Z 1) with 1%Q in Hx2, Hy2.
  fold (round_count x) in Hx1, Hx2. fold (round_count y) in Hy1, Hy2.
  destruct (round_count_bounds x 0 100) as [Hxa Hxb];
    [change (inject_Z 0) with 0%Q; lra | change (inject_Z 100) with 100%Q; lra |].
  destruct (round_count_bounds y 0 100) as [Hya Hyb];
    [change (inject_Z 0) with 0%Q; lra | change (inject_Z 100) with 100%Q; lra |].
  split; [lia|]. split; [lia|].
  assert (Hlo : (inject_Z 99 < inject_Z (round_count x + round_count y))%Q).
  { rewrite inject_Z_plus. change (inject_Z 99) with 99%Q. lra. }
  assert (Hhi : (inject_Z (round_count x + round_count y) < inject_Z 102)%Q).
  { rewrite inject_Z_plus. change (inject_Z 102) with 102%Q. lra. }
  rewrite <- Zlt_Qlt in Hlo, Hhi. lia.
Qed.

Lemma tooltipPercentage_sum_witness :
  exists pa pb : Z,
    tooltipPercentage 1 [1; 199] = Fin (inject_Z pa) /\
    tooltipPercentage 199 [1; 199] = Fin (inject_Z pb) /\
    (pa + pb = 100 \/ pa + pb = 101).
Proof.
  destruct (tooltipPercentage_sum 1 199) as (_ & pa & pb & Ha & Hb & _ & _ & Hsum);
    [lia | lia |].
  exists pa, pb. split; [exact Ha|]. split; [exact Hb | exact Hsum].
Defined.

(** ** Every run of the analysis *)

Section AnalysisFacts.

Variable sqrt_fin : Q -> Q.
Variable rnd : nat -> Q.

Local Abbreviation analyze := (analyzeTransactionData sqrt_fin rnd).

Lemma scoreRows_rows (rows : list (gmap string value)) (k : nat) :
  length (fst (scoreRows rnd rows k)) = length rows /\
  forall (i : nat) (row : gmap string value),
    rows !! i = Some row ->
    exists c : number,
      fst (scoreRows rnd rows k) !! i =
        Some (<["confidence" := VNum c]> (<["isFraudulent" := VBool (isClassOne row)]> row)).
Proof.
  revert k. induction rows as [|row0 rows IH]; intros k.
  - split; [reflexivity | intros i row Hi; discriminate].
  - cbn [scoreRows Math_random].
    destruct (IH (S k)) as [Hlen Hrows].
    destruct (scoreRows rnd rows (S k)) as [rest' k2].
    cbn [fst] in *. split; [simpl; lia|].
    intros [|i] row Hi; cbn in Hi.
    + injection Hi as <-. eexists. reflexivity.
    + exact (Hrows i row Hi).
Qed.

Lemma scoreRows_flagged (rows : list (gmap string value)) (k : nat) :
  length (List.filter flagged (fst (scoreRows rnd rows k))) =
    length (List.filter isClassOne rows).
Proof.
  revert k. induction rows as [|row0 rows IH]; intros k; [reflexivity|].
  cbn [scoreRows Math_random].
  specialize (IH (S k)).
  destruct (scoreRows rnd rows (S k)) as [rest' k2].
  cbn [fst List.filter] in *.
  rewrite flagged_after_marking.
  destruct (isClassOne row0); cbn [length]; lia.
Qed.

(** The rows after the second pass, in either mode: each is the row it
    comes from with the two properties set. *)
Lemma processed_rows (table : RawTable) (k : nat) :
  length (data (processedData (fst (analyze table k)))) = length (data table) /\
  forall (i : nat) (row : gmap string value),
    data table !! i = Some row ->
    exists (b : bool) (c : number),
      data (processedData (fst (analyze table k))) !! i =
        Some (<["confidence" := VNum c]> (<["isFraudulent" := VBool b]> row)).
Proof.
  destruct (decide ("Class" ∈ headers table)) as [Hcls|Hcls].
  - destruct (analyze_labeled sqrt_fin rnd table k Hcls) as (_ & _ & _ & -> & _).
    destruct (scoreRows_rows (data table) k) as [Hlen Hrows].
    split; [exact Hlen|]. intros i row Hi.
    destruct (Hrows i row Hi) as [c Hc]. by exists (isClassOne row), c.
  - destruct (analyze_unlabeled sqrt_fin rnd table k Hcls) as (_ & _ & _ & -> & _).
    destruct (simulateRows_spec rnd (floor_count (inject_Z (Z.of_nat (length (data table))) * 0.2))
                (data table) 0 k) as [Hlen Hrows].
    split; [exact Hlen|]. intros i row Hi.
    rewrite (Hrows i row Hi). eexists _, _. reflexivity.
Qed.

Lemma run_counts (table : RawTable) (k : nat) :
  let a := fst (analyze table k) in
  0 <= fraudulentCount a /\ 0 <= genuineCount a /\
  genuineCount a + fraudulentCount a = totalTransactions a /\
  totalTransactions a = Z.of_nat (length (data table)) /\
  Z.of_nat (length (List.filter flagged (data (processedData a)))) = fraudulentCount a.
Proof.
  cbv zeta.
  destruct (decide ("Class" ∈ headers table)) as [Hcls|Hcls].
  - destruct (analyze_labeled sqrt_fin rnd table k Hcls) as (-> & -> & -> & -> & _).
    destruct (tally_counts (bool_decide ("Amount" ∈ headers table)) (data table)
                (mkTally 0 0 [] (map (fun key => (key, [])) vKeys))) as [-> ->].
    rewrite scoreRows_flagged. cbn [tally_fraudulent tally_genuine].
    pose proof (filter_partition_length isClassOne (data table)).
    repeat split; lia.
  - destruct (analyze_unlabeled sqrt_fin rnd table k Hcls) as (-> & -> & -> & -> & _).
    rewrite simulateRows_flagged, floor_fifth.
    set (n := Z.of_nat (length (data table))).
    assert (0 <= n) by (unfold n; lia).
    assert (0 <= n / 5 <= n).
    { split; [apply Z.div_pos | apply Z.div_le_upper_bound]; lia. }
    repeat split; lia.
Qed.

(** X8: In every run, with or without a [Class] column, the two tallies are
    non-negative and add up to the number of rows, no row is added or
    dropped, and the rows flagged fraudulent are as many as the
    fraudulent tally says. *)
Theorem run_tallies_match_flags (table : RawTable) (k : nat) :
  let a := fst (analyze table k) in
  0 <= fraudulentCount a /\ 0 <= genuineCount a /\
  genuineCount a + fraudulentCount a = totalTransactions a /\
  length (data (processedData a)) = length (data table) /\
  Z.of_nat (length (List.filter flagged (data (processedData a)))) = fraudulentCount a.
Proof.
  cbv zeta.
  destruct (run_counts table k) as (H1 & H2 & H3 & _ & H5).
  destruct (processed_rows table k) as [Hlen _].
  repeat split; assumption.
Qed.

(** X9: The analysis keeps the header list and, in every row, the value
    of every column named other than [isFraudulent] and [confidence].
    Under those two names it sets a boolean and a number on each row,
    replacing what a column of that name held; a processed row binds
    them besides its columns and nothing else. *)
Theorem processed_rows_keep_columns (table : RawTable) (k i : nat) (row : gmap string value) :
  data table !! i = Some row ->
  headers (processedData (fst (analyze table k))) = headers table /\
  exists row' : gmap string value,
    data (processedData (fst (analyze table k))) !! i = Some row' /\
    dom row' = {["confidence"; "isFraudulent"]} ∪ dom row /\
    (exists b : bool, row' !! "isFraudulent" = Some (VBool b)) /\
    (exists c : number, row' !! "confidence" = Some (VNum c)) /\
    forall key : string,
      key <> "isFraudulent" -> key <> "confidence" -> row' !! key = row !! key.
Proof.
  intros Hi. split.
  { unfold analyzeTransactionData.
    destruct (negb _);
      [destruct (simulateRows _ _ _ _ _) | destruct (scoreRows _ _ _)];
      destruct (calculateCorrelations _ _ _); reflexivity. }
  destruct (processed_rows table k) as [_ Hrows].
  destruct (Hrows i row Hi) as (b & c & Hrow').
  eexists. split; [exact Hrow'|]. split; [|split; [|split]].
  - rewrite !dom_insert_L. by rewrite (assoc_L (∪)).
  - exists b. rewrite lookup_insert_ne by discriminate. apply lookup_insert_eq.
  - exists c. apply lookup_insert_eq.
  - intros key Hk1 Hk2. by rewrite !lookup_insert_ne by congruence.
Qed.

(** The statistics and the correlations of a run, in terms of the
    first pass. *)
Lemma analyze_first_pass (table : RawTable) (k : nat) :
  let acc :=
    fold_left (tallyRow (bool_decide ("Amount" ∈ headers table))
                        (bool_decide ("Class" ∈ headers table)))
      (data table) (mkTally 0 0 [] (map (fun key => (key, [])) vKeys)) in
  amountStats (fst (analyze table k)) = calculateStats sqrt_fin (tally_amounts acc) /\
  exists k1 : nat,
    correlations (fst (analyze table k)) =
      fst (calculateCorrelations rnd (tally_vFeatures acc) k1).
Proof.
  unfold analyzeTransactionData.
  destruct (negb _);
    [destruct (simulateRows _ _ _ _ _) as [rows' k1]
    | destruct (scoreRows _ _ _) as [rows' k1]];
    (destruct (calculateCorrelations _ _ k1) as [c k2] eqn:Hc;
     split; [reflexivity | exists k1; rewrite Hc; reflexivity]).
Qed.

Lemma tally_amounts_without_column (hasClass : bool) (rows : list (gmap string value))
    (acc : Tally) :
  tally_amounts (fold_left (tallyRow false hasClass) rows acc) = tally_amounts acc.
Proof.
  revert acc. induction rows as [|row rows IH]; intros acc; [reflexivity|].
  cbn [fold_left]. rewrite IH. unfold tallyRow.
  by destruct (hasClass && isClassOne row), hasClass.
Qed.

Lemma tallyRow_amounts (hasAmount hasClass : bool) (acc : Tally) (row : gmap string value) :
  tally_amounts (tallyRow hasAmount hasClass acc row) =
    if hasAmount && negb (isNaN (row !! "Amount"))
    then tally_amounts acc ++ [parseFloat (row !! "Amount")]
    else tally_amounts acc.
Proof.
  unfold tallyRow.
  by destruct (hasClass && isClassOne row), hasClass.
Qed.

Lemma tally_amounts_grow (hasAmount hasClass : bool) (rows : list (gmap string value))
    (acc : Tally) (x : number) :
  In x (tally_amounts acc) ->
  In x (tally_amounts (fold_left (tallyRow hasAmount hasClass) rows acc)).
Proof.
  revert acc. induction rows as [|row rows IH]; intros acc Hx; [exact Hx|].
  cbn [fold_left]. apply IH. rewrite tallyRow_amounts.
  destruct (hasAmount && negb (isNaN (row !! "Amount"))); [|exact Hx].
  apply in_or_app. by left.
Qed.

Lemma tally_amounts_empty_cell (hasClass : bool) (rows : list (gmap string value))
    (acc : Tally) (row : gmap string value) :
  In row rows -> row !! "Amount" = Some (VStr EmptyString) ->
  In NaN (tally_amounts (fold_left (tallyRow true hasClass) rows acc)).
Proof.
  revert acc. induction rows as [|row0 rows IH]; intros acc Hin Hcell; [destruct Hin|].
  cbn [fold_left]. destruct Hin as [->|Hin].
  - apply tally_amounts_grow. rewrite tallyRow_amounts, Hcell.
    apply in_or_app. right. by left.
  - by apply IH.
Qed.

Lemma push_feature_keys (key : string) (x : number) (fs : list (string * list number)) :
  map fst (push_feature key x fs) = map fst fs.
Proof.
  induction fs as [|[k' l] fs IH]; [reflexivity|].
  cbn [push_feature]. destruct (String.eqb key k'); cbn [map fst]; [reflexivity|].
  by rewrite IH.
Qed.

Lemma tallyRow_keys (hasAmount hasClass : bool) (acc : Tally) (row : gmap string value) :
  map fst (tally_vFeatures (tallyRow hasAmount hasClass acc row)) =
    map fst (tally_vFeatures acc).
Proof.
  unfold tallyRow.
  destruct (hasClass && isClassOne row), hasClass; cbn [tally_vFeatures];
    (generalize (tally_vFeatures acc); induction vKeys as [|key keys IH]; intros fs;
     [reflexivity|]; cbn [fold_left]; rewrite IH;
     destruct (row !! key) as [v|]; [|reflexivity];
     destruct (negb (isNaN (Some v))); [apply push_feature_keys | reflexivity]).
Qed.

Lemma tally_keys (hasAmount hasClass : bool) (rows : list (gmap string value)) (acc : Tally) :
  map fst (tally_vFeatures (fold_left (tallyRow hasAmount hasClass) rows acc)) =
    map fst (tally_vFeatures acc).
Proof.
  revert acc. induction rows as [|row rows IH]; intros acc; [reflexivity|].
  cbn [fold_left]. rewrite IH. apply tallyRow_keys.
Qed.

Lemma correlationRow_length (m : list (list number)) (i : nat) (js : list nat) (k : nat) :
  length (fst (correlationRow rnd m i js k)) = length js.
Proof.
  revert k. induction js as [|j js IH]; intros k; [reflexivity|].
  cbn [correlationRow].
  destruct (correlationCell rnd m i j k) as [x k1].
  specialize (IH k1). destruct (correlationRow rnd m i js k1) as [row k2].
  cbn [fst length] in *. by rewrite IH.
Qed.

Lemma correlationRows_shape (n : nat) (rs : list nat) (m : list (list number)) (k : nat) :
  Forall (fun row => length row = n) m ->
  length (fst (correlationRows rnd n m rs k)) = (length m + length rs)%nat /\
  Forall (fun row => length row = n) (fst (correlationRows rnd n m rs k)).
Proof.
  revert m k. induction rs as [|i rs IH]; intros m k Hm.
  - cbn. split; [lia | exact Hm].
  - cbn [correlationRows].
    pose proof (correlationRow_length m i (seq 0 n) k) as Hrow.
    destruct (correlationRow rnd m i (seq 0 n) k) as [row k1].
    cbn [fst] in Hrow. rewrite length_seq in Hrow.
    destruct (IH (m ++ [row]) k1) as [Hlen Hall].
    { apply Forall_app. split; [exact Hm | by constructor]. }
    split; [|exact Hall].
    rewrite Hlen, length_app. cbn [length]. lia.
Qed.

(** X7: Without an [Amount] column no amount is collected, and the amount
    statistics of the run are all 0. *)
Theorem amountStats_without_Amount (table : RawTable) (k : nat) :
  "Amount" ∉ headers table ->
  amountStats (fst (analyze table k)) = Stats.mk (Fin 0) (Fin 0) (Fin 0) (Fin 0) (Fin 0).
Proof.
  intros Hno.
  destruct (analyze_first_pass table k) as [-> _].
  rewrite (bool_decide_eq_false_2 _ Hno), tally_amounts_without_column.
  reflexivity.
Qed.

(** X10: Whatever the columns of the table, the correlations of a run are
    over the 28 names [V1] .. [V28], in that order, and the matrix has
    28 rows of 28 cells. *)
Theorem correlations_are_28_by_28 (table : RawTable) (k : nat) :
  let c := correlations (fst (analyze table k)) in
  features c = vKeys /\
  length (features c) = 28%nat /\
  length (matrix c) = 28%nat /\
  Forall (fun row => length row = 28%nat) (matrix c).
Proof.
  cbv zeta.
  destruct (analyze_first_pass table k) as [_ [k1 ->]].
  unfold calculateCorrelations.
  rewrite length_map.
  set (acc := fold_left _ _ _).
  assert (Hkeys : map fst (tally_vFeatures acc) = vKeys).
  { unfold acc. rewrite tally_keys. cbn [tally_vFeatures].
    rewrite map_map. cbn [fst]. apply map_id. }
  assert (Hn : length (tally_vFeatures acc) = 28%nat).
  { rewrite <- (length_map fst), Hkeys. reflexivity. }
  rewrite Hn.
  destruct (correlationRows_shape 28 (seq 0 28) [] k1) as [Hlen Hall]; [constructor|].
  destruct (correlationRows rnd 28 [] (seq 0 28) k1) as [m k2].
  cbn [fst features matrix] in *.
  split; [exact Hkeys|]. split; [by rewrite Hkeys|]. split; [exact Hlen | exact Hall].
Qed.

Lemma insert_sorted_In (x y : number) (l : list number) :
  In y (insert_sorted x l) <-> y = x \/ In y l.
Proof.
  induction l as [|z l IH]; cbn [insert_sorted].
  - cbn. intuition.
  - destruct (sorts_after x z); cbn [In]; [rewrite IH|]; intuition.
Qed.

Lemma sort_In (y : number) (l : list number) : In y (sort l) <-> In y l.
Proof.
  unfold sort. induction l as [|x l IH]; [reflexivity|].
  cbn [fold_right]. rewrite insert_sorted_In, IH. cbn. intuition.
Qed.

Lemma sort_length (l : list number) : length (sort l) = length l.
Proof.
  unfold sort. induction l as [|x l IH]; [reflexivity|].
  cbn [fold_right length]. rewrite <- IH. generalize (fold_right insert_sorted [] l).
  intros s. induction s as [|z s IHs]; [reflexivity|].
  cbn [insert_sorted]. destruct (sorts_after x z); cbn [length]; [by rewrite IHs | reflexivity].
Qed.

(** An operation that NaN absorbs on both sides folds a list holding
    NaN to NaN. *)
Lemma fold_left_NaN (op : number -> number -> number) (l : list number) (a : number) :
  (forall y : number, op NaN y = NaN) -> (forall x : number, op x NaN = NaN) ->
  In NaN (a :: l) -> fold_left op l a = NaN.
Proof.
  intros Hl Hr. revert a. induction l as [|x l IH]; intros a Hin.
  - destruct Hin as [->|[]]. reflexivity.
  - cbn [fold_left]. apply IH.
    destruct Hin as [->|[->|Hin]].
    + left. apply Hl.
    + left. apply Hr.
    + right. exact Hin.
Qed.

Lemma add_NaN_r (x : number) : Num.add x NaN = NaN.
Proof. by destruct x. Qed.

Lemma Math_min_NaN_r (x : number) : Num.Math_min x NaN = NaN.
Proof. by destruct x. Qed.

Lemma Math_max_NaN_r (x : number) : Num.Math_max x NaN = NaN.
Proof. by destruct x. Qed.

Lemma calculateStats_NaN (l : list number) :
  In NaN l ->
  Stats.min (calculateStats sqrt_fin l) = NaN /\
  Stats.max (calculateStats sqrt_fin l) = NaN /\
  Stats.mean (calculateStats sqrt_fin l) = NaN /\
  Stats.std (calculateStats sqrt_fin l) = NaN.
Proof.
  intros Hin.
  assert (Hs : In NaN (sort l)) by by apply sort_In.
  assert (Hsum : sum (sort l) = NaN).
  { apply fold_left_NaN; [reflexivity | apply add_NaN_r | by right]. }
  destruct l as [|x l]; [destruct Hin|].
  unfold calculateStats.
  cbn [Stats.min Stats.max Stats.mean Stats.std].
  rewrite Hsum. cbn [Num.div].
  split; [|split; [|split; [reflexivity|]]].
  - apply fold_left_NaN; [reflexivity | apply Math_min_NaN_r | by right].
  - apply fold_left_NaN; [reflexivity | apply Math_max_NaN_r | by right].
  - assert (Hsq : sum (map (fun y => Num.Math_pow_2 (Num.sub y NaN)) (sort (x :: l))) = NaN).
    { apply fold_left_NaN; [reflexivity | apply add_NaN_r|]. right.
      apply in_map_iff. exists NaN. split; [reflexivity | exact Hs]. }
    rewrite Hsq. reflexivity.
Qed.

(** X6: An empty [Amount] cell is not skipped: with an [Amount] column, a
    row whose amount is the empty string (as a missing field is stored)
    puts NaN among the amounts, and the minimum, maximum, mean and
    deviation of the run are NaN. *)
Theorem empty_Amount_cell_gives_NaN_stats (table : RawTable) (k i : nat)
    (row : gmap string value) :
  "Amount" ∈ headers table ->
  data table !! i = Some row ->
  row !! "Amount" = Some (VStr EmptyString) ->
  let st := amountStats (fst (analyze table k)) in
  Stats.min st = NaN /\ Stats.max st = NaN /\ Stats.mean st = NaN /\ Stats.std st = NaN.
Proof.
  intros Hamount Hi Hcell. cbv zeta.
  destruct (analyze_first_pass table k) as [-> _].
  apply calculateStats_NaN.
  rewrite (bool_decide_eq_true_2 _ Hamount).
  apply tally_amounts_empty_cell with row; [|exact Hcell].
  apply list_elem_of_In. by apply list_elem_of_lookup_2 with i.
Qed.

Lemma round_part_bounds (n : Z) :
  0 <= n ->
  0 <= round_count (inject_Z n * 0.92) <= n /\
  0 <= round_count (inject_Z n * 0.08) <= n /\
  0 <= round_count (inject_Z n * 0.99) <= n /\
  0 <= round_count (inject_Z n * 0.01) <= n.
Proof.
  intros Hn. unfold round_count, Qfloor. cbn.
  repeat split; Z.to_euclidean_division_equations; lia.
Qed.

(** X11: In every run each of the four confusion counts lies between 0 and
    the tally it is a share of; the true positives and false negatives
    add up to the fraudulent tally, and the true negatives and false
    positives to the genuine tally, plus one when that tally is 50
    modulo 100. *)
Theorem confusion_counts_within_tallies (table : RawTable) (k : nat) :
  let a := fst (analyze table k) in
  let c := confusionMatrix (metrics a) in
  0 <= truePositives c <= fraudulentCount a /\
  0 <= falseNegatives c <= fraudulentCount a /\
  0 <= trueNegatives c <= genuineCount a /\
  0 <= falsePositives c <= genuineCount a /\
  truePositives c + falseNegatives c = fraudulentCount a /\
  trueNegatives c + falsePositives c =
    (if genuineCount a mod 100 =? 50 then genuineCount a + 1 else genuineCount a).
Proof.
  cbv zeta.
  destruct (run_counts table k) as (Hf & Hg & _).
  destruct (confusion_counts_sums sqrt_fin rnd table k) as [Hs1 Hs2].
  rewrite analyze_metrics in *.
  cbn [simulatedMetrics confusionMatrix truePositives falseNegatives
       trueNegatives falsePositives] in *.
  destruct (round_part_bounds _ Hf) as (H1 & H2 & _ & _).
  destruct (round_part_bounds _ Hg) as (_ & _ & H3 & H4).
  repeat split; (lia || assumption).
Qed.

(** X17: The class distribution chart of a run never has an empty slice: a
    tally of 0 is replaced, by 95 for the genuine slice and by 5 for
    the fraudulent one, and a tally that is not 0 is shown as it is. *)
Theorem class_chart_replaces_zero_tally (table : RawTable) (k : nat) :
  let a := fst (analyze table k) in
  exists g f : Z,
    classDistributionData (genuineCount a) (fraudulentCount a) = [g; f] /\
    0 < g /\ 0 < f /\
    g = (if genuineCount a =? 0 then 95 else genuineCount a) /\
    f = (if fraudulentCount a =? 0 then 5 else fraudulentCount a).
Proof.
  cbv zeta.
  destruct (run_counts table k) as (Hf & Hg & _).
  eexists _, _. split; [reflexivity|].
  split; [by apply orElse_positive|]. split; [by apply orElse_positive|].
  split; reflexivity.
Qed.

End AnalysisFacts.

(** ** The sample of rows shown in the table *)

Section SampleFacts.

Variable sqrt_fin : Q -> Q.
Variable rnd : nat -> Q.
Variable toLocaleString : number -> string.
Variable toFixed2 : number -> string.

(** X12: The sample of a run holds its first ten rows at most, in order.
    Each entry carries the flag of its row; its time is [N/A] when the
    row has no [Time], or a [Time] of 0 or the empty string; its amount
    is [N/A] only when the row has no [Amount] property. *)
Theorem sampleTransactions_first_ten (table : RawTable) (k i : nat)
    (row : gmap string value) :
  (i < 10)%nat ->
  data table !! i = Some row ->
  let rows' := data (processedData (fst (analyzeTransactionData sqrt_fin rnd table k))) in
  let sample := sampleTransactions toLocaleString toFixed2 rows' in
  length sample = Nat.min 10 (length (data table)) /\
  exists (tx : SampleTransaction) (row' : gmap string value) (b : bool),
    sample !! i = Some tx /\
    rows' !! i = Some row' /\
    isFraudulent tx = Some (VBool b) /\ flagged row' = b /\
    (row !! "Time" = None \/ row !! "Time" = Some (VNum (Fin 0)) \/
     row !! "Time" = Some (VStr EmptyString) -> time tx = "N/A"%string) /\
    (row !! "Amount" = None -> amount tx = "N/A"%string) /\
    (forall v : value, row !! "Amount" = Some v -> amount tx = toFixed2 (parseFloat (Some v))).
Proof.
  intros Hi Hrow rows' sample.
  destruct (processed_rows sqrt_fin rnd table k) as [Hlen Hrows].
  destruct (Hrows i row Hrow) as (b & c & Hrow').
  fold rows' in Hlen, Hrow'.
  split.
  { unfold sample, sampleTransactions. by rewrite length_map, length_take, Hlen. }
  eexists _, _, b.
  split.
  { unfold sample, sampleTransactions.
    rewrite list_lookup_fmap, lookup_take_lt by exact Hi. rewrite Hrow'. reflexivity. }
  split; [exact Hrow'|].
  cbn [sampleTransaction isFraudulent time amount].
  rewrite !(lookup_insert_ne _ "confidence") by discriminate.
  rewrite lookup_insert_eq.
  rewrite !(lookup_insert_ne _ "isFraudulent") by discriminate.
  split; [reflexivity|].
  split; [apply flagged_after_marking|].
  split; [|split].
  - intros [H|[H|H]]; rewrite H; reflexivity.
  - intros H. rewrite H. reflexivity.
  - intros v H. rewrite H. reflexivity.
Qed.

End SampleFacts.

(** ** More on the row parser *)

Lemma split_not_nil (sep : ascii) (s : string) : Str.split sep s <> [].
Proof.
  destruct s as [|c s]; cbn [Str.split]; [discriminate|].
  destruct (Ascii.eqb c sep); [discriminate|].
  destruct (Str.split sep s); discriminate.
Qed.

Lemma split_plain (sep : ascii) (x : string) :
  has_char sep x = false -> Str.split sep x = [x].
Proof.
  induction x as [|c x IH]; intros Hx; [reflexivity|].
  cbn [has_char] in Hx. apply orb_false_iff in Hx as [Hc Hx].
  cbn [Str.split]. rewrite Hc, (IH Hx). reflexivity.
Qed.

Lemma split_app (sep : ascii) (x rest : string) :
  has_char sep x = false ->
  Str.split sep (x ++ String sep rest) = x :: Str.split sep rest.
Proof.
  induction x as [|c x IH]; intros Hx.
  - change (EmptyString ++ String sep rest)%string with (String sep rest).
    cbn [Str.split]. by rewrite Ascii.eqb_refl.
  - cbn [has_char] in Hx. apply orb_false_iff in Hx as [Hc Hx].
    change (String c x ++ String sep rest)%string with (String c (x ++ String sep rest)).
    cbn [Str.split]. rewrite Hc, (IH Hx). reflexivity.
Qed.

(** Splitting the pieces joined by the separator gives the pieces
    back, when none holds the separator. *)
Lemma split_concat (sep : ascii) (pieces : list string) :
  pieces <> [] ->
  Forall (fun x => has_char sep x = false) pieces ->
  Str.split sep (String.concat (String sep EmptyString) pieces) = pieces.
Proof.
  induction pieces as [|x pieces IH]; intros Hne Hall; [congruence|].
  apply Forall_cons in Hall as [Hx Hall].
  destruct pieces as [|y pieces].
  - cbn [String.concat]. by apply split_plain.
  - change (String.concat (String sep EmptyString) (x :: y :: pieces))
      with (x ++ String sep (String.concat (String sep EmptyString) (y :: pieces)))%string.
    rewrite split_app by exact Hx. rewrite IH; [reflexivity | discriminate | exact Hall].
Qed.

Lemma filter_map_lines (lines : list (list string)) :
  Forall (fun fields => is_blank (String.concat "," fields) = false) lines ->
  List.filter (fun line => negb (is_blank line)) (map (String.concat ",") lines) =
    map (String.concat ",") lines.
Proof.
  induction 1 as [|fields lines Hb _ IH]; [reflexivity|].
  cbn [map List.filter]. rewrite Hb. cbn [negb]. by rewrite IH.
Qed.

Lemma has_char_concat (c : ascii) (sep : string) (pieces : list string) :
  has_char c sep = false ->
  Forall (fun x => has_char c x = false) pieces ->
  has_char c (String.concat sep pieces) = false.
Proof.
  intros Hsep.
  assert (Happ : forall a b : string,
             has_char c a = false -> has_char c b = false -> has_char c (a ++ b) = false).
  { intros a b Ha Hb. induction a as [|d a IHa]; [exact Hb|].
    cbn [has_char] in Ha. apply orb_false_iff in Ha as [Hd Ha].
    change (String d a ++ b)%string with (String d (a ++ b)).
    cbn [has_char]. by rewrite Hd, IHa. }
  induction 1 as [|x pieces Hx Hall IH]; [reflexivity|].
  destruct pieces as [|y pieces]; [exact Hx|].
  change (String.concat sep (x :: y :: pieces))
    with (x ++ sep ++ String.concat sep (y :: pieces))%string.
  apply Happ; [exact Hx|]. apply Happ; [exact Hsep | exact IH].
Qed.

(** X1: Writing a table out and parsing it gives its structure back: when
    no field holds a comma or a line break, no record is empty and no
    written line is blank, the text made of the header fields and of
    the records, joined by commas and line breaks, parses to the
    trimmed header fields and to one row per record, in order, built
    from the fields of that record. *)
Theorem parseCSV_of_written_table (headerFields : list string) (records : list (list string)) :
  Forall (fun fields =>
            fields <> [] /\
            Forall (fun x => has_char "," x = false /\ has_char "010" x = false) fields /\
            is_blank (String.concat "," fields) = false)
         (headerFields :: records) ->
  parseCSV (String.concat nl (map (String.concat ",") (headerFields :: records))) =
    Ok (mkRawTable
          (map Str.trim headerFields)
          (map (fun fields => parseRow (map Str.trim headerFields) fields ∅) records)
          (length records)).
Proof.
  intros Hall. unfold parseCSV, nonblank_lines.
  rewrite (split_concat "010").
  - rewrite filter_map_lines.
    + cbn [map].
      apply Forall_cons in Hall as [(Hne & Hfields & _) Hrecords].
      rewrite (split_concat ",");
        [|exact Hne | eapply Forall_impl; [exact Hfields | by intros x [H _]]].
      rewrite !length_map, map_map.
      assert (Hdata :
        map (fun fields => parseRow (map Str.trim headerFields)
                             (Str.split "," (String.concat "," fields)) ∅) records =
        map (fun fields => parseRow (map Str.trim headerFields) fields ∅) records).
      { apply Forall_fmap_ext_1. eapply Forall_impl; [exact Hrecords|].
        intros fields (Hne' & Hfields' & _). cbn beta.
        rewrite (split_concat ",");
          [reflexivity | exact Hne' | eapply Forall_impl; [exact Hfields' | by intros x [H _]]]. }
      by rewrite Hdata.
    + eapply Forall_impl; [exact Hall | by intros fields (_ & _ & H)].
  - discriminate.
  - apply Forall_fmap. eapply Forall_impl; [exact Hall|].
    intros fields (_ & Hfields & _). cbn beta.
    apply has_char_concat; [reflexivity|].
    eapply Forall_impl; [exact Hfields | by intros x [_ H]].
Qed.

Lemma trimStart_spec (s : string) :
  Str.trimStart (Str.trimStart s) = Str.trimStart s /\
  exists a : string, s = (a ++ Str.trimStart s)%string /\ all_ws a.
Proof.
  induction s as [|c s [IH1 (a & IH2 & IH3)]].
  - split; [reflexivity|]. exists EmptyString. split; [reflexivity | constructor].
  - cbn [Str.trimStart]. destruct (Str.is_ws c) eqn:Hc.
    + split; [exact IH1|]. exists (String c a). split.
      * change (String c a ++ Str.trimStart s)%string with (String c (a ++ Str.trimStart s)).
        by rewrite <- IH2.
      * constructor; assumption.
    + split; [cbn [Str.trimStart]; by rewrite Hc|].
      exists EmptyString. split; [reflexivity | constructor].
Qed.

Lemma all_ws_trimEnd (s : string) : all_ws s -> Str.trimEnd s = EmptyString.
Proof.
  unfold all_ws. induction s as [|c s IH]; intros Hs; [reflexivity|].
  cbn [list_ascii_of_string] in Hs. apply Forall_cons in Hs as [Hc Hs].
  cbn [Str.trimEnd]. by rewrite (IH Hs), Hc.
Qed.

Lemma trimEnd_cons (c : ascii) (s : string) :
  Str.trimEnd (String c s) =
    match Str.trimEnd s with
    | EmptyString => if Str.is_ws c then EmptyString else String c EmptyString
    | t => String c t
    end.
Proof. reflexivity. Qed.

Lemma trimEnd_spec (s : string) :
  Str.trimEnd (Str.trimEnd s) = Str.trimEnd s /\
  exists b : string, s = (Str.trimEnd s ++ b)%string /\ all_ws b.
Proof.
  induction s as [|c s [IH1 (b & IH2 & IH3)]].
  - split; [reflexivity|]. exists EmptyString. split; [reflexivity | constructor].
  - cbn [Str.trimEnd]. destruct (Str.trimEnd s) as [|d t] eqn:Ht.
    + destruct (Str.is_ws c) eqn:Hc.
      * split; [reflexivity|]. exists (String c s). split; [reflexivity|].
        change (EmptyString ++ b)%string with b in IH2. subst s.
        constructor; assumption.
      * split; [cbn [Str.trimEnd]; by rewrite Hc|].
        change (EmptyString ++ b)%string with b in IH2. subst s.
        exists b. split; [reflexivity | exact IH3].
    + split.
      * rewrite trimEnd_cons, IH1. reflexivity.
      * exists b. split; [|exact IH3].
        change (String c (String d t) ++ b)%string with (String c (String d t ++ b)).
        by rewrite <- IH2.
Qed.

Lemma trimStart_trimEnd (t : string) :
  Str.trimStart t = t -> Str.trimStart (Str.trimEnd t) = Str.trimEnd t.
Proof.
  destruct t as [|c t]; [reflexivity|].
  intros Ht. cbn [Str.trimStart] in Ht.
  destruct (Str.is_ws c) eqn:Hc.
  - exfalso.
    destruct (trimStart_spec t) as [_ (a & Ha & _)].
    apply (f_equal String.length) in Ht, Ha.
    rewrite length_append in Ha. cbn [String.length] in Ht. lia.
  - cbn [Str.trimEnd]. destruct (Str.trimEnd t); rewrite ?Hc; cbn [Str.trimStart];
      by rewrite Hc.
Qed.

(** [s.trim()] has no white space at either end, and [s] is it between
    two runs of white space. *)
Lemma trim_spec (s : string) :
  tight (Str.trim s) /\
  exists a b : string, s = (a ++ Str.trim s ++ b)%string /\ all_ws a /\ all_ws b.
Proof.
  unfold Str.trim.
  destruct (trimStart_spec s) as [Hs1 (a & Ha & Hwa)].
  destruct (trimEnd_spec (Str.trimStart s)) as [He1 (b & Hb & Hwb)].
  split.
  - split; [by apply trimStart_trimEnd | exact He1].
  - exists a, b. split; [|split; assumption].
    rewrite <- Hb. exact Ha.
Qed.

(** X2: Each header of a parsed table is the text of its field of the
    header line without the white space around it: it has none at
    either end, and the field is the header between two runs of white
    space. *)
Theorem headers_are_trimmed (csvData header : string) (rest : list string) :
  nonblank_lines csvData = header :: rest ->
  exists t : RawTable,
    parseCSV csvData = Ok t /\
    Forall2
      (fun h field =>
         tight h /\
         exists a b : string, field = (a ++ h ++ b)%string /\ all_ws a /\ all_ws b)
      (headers t) (Str.split "," header).
Proof.
  intros Hlines. unfold parseCSV. rewrite Hlines.
  eexists. split; [reflexivity|]. cbn [headers].
  induction (Str.split "," header) as [|field fields IH]; [constructor|].
  cbn [map]. constructor; [apply trim_spec | exact IH].
Qed.

Lemma headers_are_trimmed_witness :
  exists t : RawTable,
    parseCSV ("  a , b" ++ nl ++ "1,2") = Ok t /\
    Forall2
      (fun h field =>
         tight h /\
         exists a b : string, field = (a ++ h ++ b)%string /\ all_ws a /\ all_ws b)
      (headers t) ["  a "; " b"]%string.
Proof.
  apply (headers_are_trimmed ("  a , b" ++ nl ++ "1,2") "  a , b" ["1,2"]%string).
  vm_compute. reflexivity.
Defined.

Lemma substring_prefix (s t : string) :
  String.substring 0 (String.length s) (s ++ t) = s.
Proof.
  induction s as [|c s IH]; cbn [String.length].
  - change (EmptyString ++ t)%string with t. by destruct t.
  - change (String c s ++ t)%string with (String c (s ++ t)).
    cbn [String.substring]. by rewrite IH.
Qed.

Lemma fieldText_quoted (s : string) :
  fieldText (Some (dquote ++ s ++ dquote)%string) = s.
Proof.
  change (dquote ++ s ++ dquote)%string with (String "034" (s ++ dquote)).
  unfold fieldText. cbv beta iota zeta.
  assert (Hends : Str.endsWith (String "034" (s ++ dquote)) dquote = true).
  { apply endsWith_spec. by exists (String "034" s). }
  rewrite Hends.
  assert (Hstarts : Str.startsWith (String "034" (s ++ dquote)) dquote = true).
  { apply String.prefix_correct. by destruct (s ++ dquote)%string. }
  rewrite Hstarts.
  cbn [andb]. unfold Str.substring.
  cbn [String.length]. rewrite length_append.
  change (String.length dquote) with 1%nat.
  replace (Z.to_nat _) with 1%nat by lia.
  replace (Z.to_nat _) with (String.length s) by lia.
  cbn [String.substring]. apply substring_prefix.
Qed.

(** X3: A field wrapped in a pair of double quotes is read without them,
    whatever is between (nothing, a numeral, more quotes): one pair is
    removed and the rest is converted like any field.  A field that is
    a lone double quote is kept as it is. *)
Theorem quoted_field_is_unwrapped (s : string) :
  fieldText (Some (dquote ++ s ++ dquote)%string) = s /\
  parseField (Some (dquote ++ s ++ dquote)%string) =
    (if Num.isNaN (Lit.parseFloat s) then VStr s else VNum (Lit.parseFloat s)) /\
  parseField (Some dquote) = VStr dquote.
Proof.
  split; [apply fieldText_quoted|]. split; [|reflexivity].
  unfold parseField. by rewrite fieldText_quoted.
Qed.

Lemma parseRow_values (hs values : list string) (entry : gmap string value)
    (key : string) (x : value) :
  parseRow hs values entry !! key = Some x ->
  entry !! key = Some x \/ exists v : option string, x = parseField v.
Proof.
  revert values entry. induction hs as [|h hs IH]; intros values entry Hx; [by left|].
  cbn [parseRow] in Hx. destruct (IH _ _ Hx) as [Hin|Hv]; [|by right].
  unfold assign in Hin. destruct (String.eqb h proto_key); [by left|].
  destruct (decide (h = key)) as [->|Hne].
  - rewrite lookup_insert_eq in Hin. injection Hin as <-. right. by eexists.
  - rewrite lookup_insert_ne in Hin by assumption. by left.
Qed.

(** X4: What a parsed table holds: a cell is never a boolean and never the
    number NaN, and a cell that is a string is one [parseFloat] reads
    no number from; in particular no cell is the string "1", so a row
    counts as fraudulent only through a [Class] cell that is the number
    1. *)
Theorem parsed_cells_are_clean (csvData : string) (t : RawTable) (i : nat)
    (row : gmap string value) :
  parseCSV csvData = Ok t ->
  data t !! i = Some row ->
  (forall (key : string) (x : value),
      row !! key = Some x ->
      match x with
      | VNum n => Num.isNaN n = false
      | VStr s => Num.isNaN (Lit.parseFloat s) = true /\ s <> "1"%string
      | VBool _ => False
      end) /\
  (isClassOne row = true ->
   exists n : number, row !! "Class" = Some (VNum n) /\ Num.eqb n (Fin 1) = true).
Proof.
  intros Hparse Hrow.
  assert (Hcells : forall (key : string) (x : value),
             row !! key = Some x ->
             match x with
             | VNum n => Num.isNaN n = false
             | VStr s => Num.isNaN (Lit.parseFloat s) = true /\ s <> "1"%string
             | VBool _ => False
             end).
  { unfold parseCSV in Hparse.
    destruct (nonblank_lines csvData) as [|header rest]; [discriminate|].
    injection Hparse as <-. cbn [data] in Hrow.
    rewrite list_lookup_fmap in Hrow.
    destruct (rest !! i) as [line|]; [|discriminate].
    injection Hrow as <-.
    intros key x Hx.
    apply parseRow_values in Hx as [Hx|[v ->]]; [by rewrite lookup_empty in Hx|].
    unfold parseField.
    destruct (Num.isNaN (Lit.parseFloat (fieldText v))) eqn:Hnan; [|exact Hnan].
    split; [exact Hnan|].
    intros Hone. rewrite Hone in Hnan. vm_compute in Hnan. discriminate. }
  split; [exact Hcells|].
  unfold isClassOne. intros Hone.
  destruct (row !! "Class") as [[n|s|b]|] eqn:Hclass; try discriminate.
  - by exists n.
  - apply String.eqb_eq in Hone. subst s.
    destruct (Hcells "Class" (VStr "1") Hclass) as [_ Hne]. by destruct Hne.
Qed.

Lemma parsed_cells_are_clean_witness :
  exists row : gmap string value,
    data (table_of three_labeled) !! 0%nat = Some row /\
    exists n : number, row !! "Class" = Some (VNum n) /\ Num.eqb n (Fin 1) = true.
Proof.
  destruct (data (table_of three_labeled) !! 0%nat) as [row|] eqn:Hrow;
    [|vm_compute in Hrow; discriminate].
  exists row. split; [reflexivity|].
  apply (parsed_cells_are_clean three_labeled (table_of three_labeled) 0 row).
  - vm_compute. reflexivity.
  - exact Hrow.
  - vm_compute in Hrow. injection Hrow as <-. vm_compute. reflexivity.
Defined.

(** ** Statistics of finite amounts *)

Lemma fold_min_fin (qs : list Q) (a : Q) :
  exists m : Q,
    fold_left Num.Math_min (map Fin qs) (Fin a) = Fin m /\
    (m = a \/ In m qs) /\ (m <= a)%Q /\ forall q : Q, In q qs -> (m <= q)%Q.
Proof.
  revert a. induction qs as [|q qs IH]; intros a.
  - exists a. split; [reflexivity|]. split; [by left|]. split; [lra | intros q []].
  - cbn [map fold_left]. unfold Num.Math_min at 2, Num.ltb.
    destruct (Qlt_le_dec q a) as [Hlt|Hge].
    + destruct (IH q) as (m & -> & Hm & Hle & Hall).
      exists m. split; [reflexivity|]. split; [|split].
      * right. destruct Hm as [->|Hm]; [by left | by right].
      * lra.
      * intros q' [<-|Hq']; [exact Hle | by apply Hall].
    + destruct (IH a) as (m & -> & Hm & Hle & Hall).
      exists m. split; [reflexivity|]. split; [|split].
      * destruct Hm as [->|Hm]; [by left | right; by right].
      * exact Hle.
      * intros q' [<-|Hq']; [lra | by apply Hall].
Qed.

Lemma fold_max_fin (qs : list Q) (a : Q) :
  exists m : Q,
    fold_left Num.Math_max (map Fin qs) (Fin a) = Fin m /\
    (m = a \/ In m qs) /\ (a <= m)%Q /\ forall q : Q, In q qs -> (q <= m)%Q.
Proof.
  revert a. induction qs as [|q qs IH]; intros a.
  - exists a. split; [reflexivity|]. split; [by left|]. split; [lra | intros q []].
  - cbn [map fold_left]. unfold Num.Math_max at 2, Num.ltb.
    destruct (Qlt_le_dec a q) as [Hlt|Hge].
    + destruct (IH q) as (m & -> & Hm & Hle & Hall).
      exists m. split; [reflexivity|]. split; [|split].
      * right. destruct Hm as [->|Hm]; [by left | by right].
      * lra.
      * intros q' [<-|Hq']; [exact Hle | by apply Hall].
    + destruct (IH a) as (m & -> & Hm & Hle & Hall).
      exists m. split; [reflexivity|]. split; [|split].
      * destruct Hm as [->|Hm]; [by left | right; by right].
      * exact Hle.
      * intros q' [<-|Hq']; [lra | by apply Hall].
Qed.

Lemma sorts_after_fin (x y : Q) : sorts_after (Fin x) (Fin y) = true <-> (y < x)%Q.
Proof.
  unfold sorts_after, Num.sub, Num.neg, Num.add, Num.ltb.
  destruct (Qlt_le_dec 0 _) as [H|H]; rewrite !Qred_correct in H;
    (split; [intros Hcmp | intros Hlt]); try reflexivity; try discriminate; lra.
Qed.

(** Inserting into an ascending list of finite numbers keeps it
    ascending, and adds the value and nothing else. *)
Lemma insert_sorted_fin (x : Q) (l : list Q) :
  StronglySorted Qle l ->
  exists l' : list Q,
    insert_sorted (Fin x) (map Fin l) = map Fin l' /\
    Permutation l' (x :: l) /\ StronglySorted Qle l'.
Proof.
  induction 1 as [|y l Hsorted IH Hall].
  - exists [x]. split; [reflexivity|]. split; [reflexivity|]. repeat constructor.
  - cbn [map insert_sorted].
    destruct (sorts_after (Fin x) (Fin y)) eqn:Hcmp.
    + apply sorts_after_fin in Hcmp.
      destruct IH as (l' & -> & Hperm & Hs').
      exists (y :: l'). split; [reflexivity|]. split.
      * rewrite Hperm. apply perm_swap.
      * constructor; [exact Hs'|].
        apply (Permutation_Forall (Permutation_sym Hperm)).
        constructor; [lra | exact Hall].
    + exists (x :: y :: l). split; [reflexivity|]. split; [reflexivity|].
      assert (Hxy : (x <= y)%Q).
      { destruct (Qlt_le_dec y x) as [Hlt|Hle]; [|exact Hle].
        apply sorts_after_fin in Hlt. congruence. }
      constructor; [by constructor|].
      constructor; [exact Hxy|].
      apply (Forall_impl _ _ _ Hall). intros z Hz. lra.
Qed.

(** The sort of finite numbers: the same values, in ascending order. *)
Lemma sort_fin (qs : list Q) :
  exists qs' : list Q,
    sort (map Fin qs) = map Fin qs' /\
    Permutation qs' qs /\ StronglySorted Qle qs'.
Proof.
  unfold sort. induction qs as [|q qs (l & IH & Hperm & Hs)].
  - exists []. split; [reflexivity|]. split; constructor.
  - cbn [map fold_right]. rewrite IH.
    destruct (insert_sorted_fin q l Hs) as (l' & -> & Hperm' & Hs').
    exists l'. split; [reflexivity|]. split; [|exact Hs'].
    rewrite Hperm'. by constructor.
Qed.

Lemma nth_fin (qs : list Q) (i : nat) :
  (i < length qs)%nat -> nth i (map Fin qs) NaN = Fin (nth i qs 0%Q).
Proof.
  intros Hi.
  rewrite (nth_indep _ NaN (Fin 0)) by (by rewrite length_map).
  apply map_nth.
Qed.

Lemma filter_length_perm (f : Q -> bool) (l l' : list Q) :
  Permutation l l' -> length (List.filter f l) = length (List.filter f l').
Proof.
  induction 1 as [|x l l' _ IH|x y l|l l' l'' _ IH1 _ IH2]; cbn [List.filter].
  - reflexivity.
  - destruct (f x); cbn [length]; congruence.
  - destruct (f x), (f y); reflexivity.
  - congruence.
Qed.

Lemma filter_length_all (f : Q -> bool) (l : list Q) :
  Forall (fun q => f q = true) l -> length (List.filter f l) = length l.
Proof.
  induction 1 as [|x l Hx _ IH]; [reflexivity|].
  cbn [List.filter]. rewrite Hx. cbn [length]. congruence.
Qed.

(** In an ascending list the value at position [k] has at least [k + 1]
    values not above it and at least [length l - k] values not below
    it. *)
Lemma sorted_count (l : list Q) (k : nat) :
  StronglySorted Qle l -> (k < length l)%nat ->
  (k + 1 <= length (List.filter (fun q => Qle_bool q (nth k l 0%Q)) l))%nat /\
  (length l - k <= length (List.filter (fun q => Qle_bool (nth k l 0%Q) q) l))%nat.
Proof.
  intros Hs. revert k.
  induction Hs as [|x l Hs IH Hall]; intros k Hk; [cbn in Hk; lia|].
  destruct k as [|k]; cbn [nth].
  - split.
    + cbn [List.filter]. rewrite (proj2 (Qle_bool_iff x x)) by lra. cbn [length]. lia.
    + rewrite filter_length_all; [lia|].
      constructor; [apply Qle_bool_iff; lra|].
      apply (Forall_impl _ _ _ Hall). intros z Hz. by apply Qle_bool_iff.
  - cbn [length] in Hk. destruct (IH k) as [H1 H2]; [lia|].
    assert (Hx : (x <= nth k l 0)%Q).
    { rewrite Forall_forall in Hall. apply Hall. apply list_elem_of_In, nth_In. lia. }
    cbn [List.filter]. rewrite (proj2 (Qle_bool_iff x _)) by exact Hx.
    cbn [length]. split; [lia|].
    destruct (Qle_bool (nth k l 0%Q) x); cbn [length]; lia.
Qed.

(** X5: For a non-empty list of finite numbers, the minimum and the
    maximum are values of the list that bound all the others; and when
    the list has an odd number of values, the median is a value of the
    list with more than half of the values not above it and more than
    half not below it. *)
Theorem calculateStats_within_extremes (sqrt_fin : Q -> Q) (q0 : Q) (qs : list Q) :
  let st := calculateStats sqrt_fin (map Fin (q0 :: qs)) in
  exists lo hi : Q,
    Stats.min st = Fin lo /\ Stats.max st = Fin hi /\
    In lo (q0 :: qs) /\ In hi (q0 :: qs) /\
    (forall q : Q, In q (q0 :: qs) -> (lo <= q <= hi)%Q) /\
    (Nat.odd (length (q0 :: qs)) = true ->
     exists md : Q,
       Stats.median st = Fin md /\ In md (q0 :: qs) /\
       (lo <= md <= hi)%Q /\
       (length (q0 :: qs) <
          2 * length (List.filter (fun q => Qle_bool q md) (q0 :: qs)))%nat /\
       (length (q0 :: qs) <
          2 * length (List.filter (fun q => Qle_bool md q) (q0 :: qs)))%nat).
Proof.
  cbv zeta.
  destruct (sort_fin (q0 :: qs)) as (sorted & Hsorted & Hperm & Hasc).
  pose proof (Permutation_length Hperm) as Hlen.
  assert (Hin : forall q : Q, In q sorted <-> In q (q0 :: qs)).
  { intros q. split; apply Permutation_in; [exact Hperm | by symmetry]. }
  change (calculateStats sqrt_fin (map Fin (q0 :: qs))) with
    (let sorted := sort (map Fin (q0 :: qs)) in
     let mean := Num.div (sum sorted) (Num.of_nat (length sorted)) in
     let squaredDiffs := map (fun x => Num.Math_pow_2 (Num.sub x mean)) sorted in
     let variance := Num.div (sum squaredDiffs) (Num.of_Z (Z.of_nat (length sorted) - 1)) in
     let std := Num.Math_sqrt sqrt_fin variance in
     let mid := (length sorted / 2)%nat in
     let median :=
       if negb (length sorted mod 2 =? 0)%nat
       then nth mid sorted NaN
       else Num.div (Num.add (nth (mid - 1) sorted NaN) (nth mid sorted NaN)) (Fin 2) in
     Stats.mk (Num.Math_min_list sorted) (Num.Math_max_list sorted) mean median std).
  cbv zeta. rewrite Hsorted. cbn [Stats.min Stats.max Stats.mean Stats.median].
  rewrite length_map, <- Hlen.
  destruct sorted as [|s0 sorted]; [discriminate|].
  set (n := length (s0 :: sorted)) in *.
  unfold Num.Math_min_list, Num.Math_max_list.
  cbn [map fold_left].
  change (Num.Math_min PosInf (Fin s0)) with (Fin s0).
  change (Num.Math_max NegInf (Fin s0)) with (Fin s0).
  destruct (fold_min_fin sorted s0) as (lo & -> & Hlo_in & Hlo_le & Hlo_all).
  destruct (fold_max_fin sorted s0) as (hi & -> & Hhi_in & Hhi_le & Hhi_all).
  assert (Hbounds : forall q : Q, In q (s0 :: sorted) -> (lo <= q <= hi)%Q).
  { intros q [<-|Hq]; [lra|]. split; [by apply Hlo_all | by apply Hhi_all]. }
  exists lo, hi.
  split; [reflexivity|]. split; [reflexivity|].
  split. { apply Hin. destruct Hlo_in as [->|H]; [by left | by right]. }
  split. { apply Hin. destruct Hhi_in as [->|H]; [by left | by right]. }
  split. { intros q Hq. apply Hbounds. by apply Hin. }
  intros Hodd.
  assert (Hmod : (n mod 2 = 1)%nat).
  { apply Nat.odd_spec in Hodd as [m Hm].
    pose proof (Nat.div_mod_eq n 2) as Hdiv.
    pose proof (Nat.mod_upper_bound n 2) as Hup. lia. }
  pose proof (Nat.div_mod_eq n 2) as Hdiv.
  assert (Hmid : (n / 2 < n)%nat) by lia.
  rewrite Hmod. cbn [Nat.eqb negb].
  change (Fin s0 :: map Fin sorted) with (map Fin (s0 :: sorted)).
  rewrite (nth_fin (s0 :: sorted) (n / 2) Hmid).
  destruct (sorted_count (s0 :: sorted) (n / 2) Hasc Hmid) as [Hbelow Habove].
  fold n in Habove.
  assert (Hmd : In (nth (n / 2) (s0 :: sorted) 0%Q) (s0 :: sorted)) by (by apply nth_In).
  exists (nth (n / 2) (s0 :: sorted) 0%Q).
  split; [reflexivity|]. split; [by apply Hin|]. split; [by apply Hbounds|].
  rewrite <- !(filter_length_perm _ _ _ Hperm). lia.
Qed.

(** ** More runs on the sample files *)

Lemma processed_rows_keep_columns_witness :
  exists row' : gmap string value,
    data (processedData (sample_run three_labeled)) !! 1%nat = Some row' /\
    row' !! "Amount" = Some (VNum (Fin 50)).
Proof.
  destruct (data (table_of three_labeled) !! 1%nat) as [row|] eqn:Hrow;
    [|vm_compute in Hrow; discriminate].
  destruct (processed_rows_keep_columns sqrt6 rnd37 (table_of three_labeled) 0 1 row Hrow)
    as (_ & row' & Hrow' & _ & _ & _ & Hkeep).
  exists row'. split; [exact Hrow'|].
  rewrite Hkeep by discriminate.
  vm_compute in Hrow. injection Hrow as <-. vm_compute. reflexivity.
Defined.

Lemma amountStats_without_Amount_witness :
  amountStats (sample_run fifty_genuine) = Stats.mk (Fin 0) (Fin 0) (Fin 0) (Fin 0) (Fin 0).
Proof.
  apply (amountStats_without_Amount sqrt6 rnd37 (table_of fifty_genuine) 0).
  apply (bool_decide_eq_false_1 _). vm_compute. reflexivity.
Defined.

Lemma empty_Amount_cell_gives_NaN_stats_witness :
  Stats.min (amountStats (sample_run missing_amount)) = NaN /\
  Stats.max (amountStats (sample_run missing_amount)) = NaN /\
  Stats.mean (amountStats (sample_run missing_amount)) = NaN /\
  Stats.std (amountStats (sample_run missing_amount)) = NaN.
Proof.
  destruct (data (table_of missing_amount) !! 1%nat) as [row|] eqn:Hrow;
    [|vm_compute in Hrow; discriminate].
  apply (empty_Amount_cell_gives_NaN_stats sqrt6 rnd37 (table_of missing_amount) 0 1 row).
  - apply (bool_decide_eq_true_1 _). vm_compute. reflexivity.
  - exact Hrow.
  - vm_compute in Hrow. injection Hrow as <-. vm_compute. reflexivity.
Defined.

Lemma sampleTransactions_first_ten_witness :
  exists tx : SampleTransaction,
    sampleTransactions (fun _ => "date"%string) (fun _ => "0.00"%string)
      (data (processedData (sample_run three_labeled))) !! 0%nat = Some tx /\
    time tx = "N/A"%string.
Proof.
  destruct (data (table_of three_labeled) !! 0%nat) as [row|] eqn:Hrow;
    [|vm_compute in Hrow; discriminate].
  destruct (sampleTransactions_first_ten sqrt6 rnd37 (fun _ => "date"%string)
              (fun _ => "0.00"%string) (table_of three_labeled) 0 0 row)
    as (_ & tx & row' & b & Htx & _ & _ & _ & Htime & _); [lia | exact Hrow |].
  exists tx. split; [exact Htx|].
  apply Htime. right. left.
  vm_compute in Hrow. injection Hrow as <-. vm_compute. reflexivity.
Defined.

Lemma parseCSV_of_written_table_witness :
  parseCSV (String.concat nl ["name, Amount"; "a,1"; "b"]%string) =
    Ok (mkRawTable ["name"; "Amount"]%string
          [parseRow ["name"; "Amount"]%string ["a"; "1"]%string ∅;
           parseRow ["name"; "Amount"]%string ["b"]%string ∅] 2).
Proof.
  apply (parseCSV_of_written_table ["name"; " Amount"]%string
           [["a"; "1"]; ["b"]]%string).
  repeat constructor; discriminate.
Defined.
